(** * QA_on_CSV: change-aware indexing and the conversational retrieval chain

    A shallow embedding of [src/index.js].  The script has two parts:

    - lines 30-64: fingerprint the CSV corpus with SHA-256, compare with the
      digest stored in a sidecar file, rebuild and persist the HNSW vector
      store when they differ, and always load the store from disk;
    - lines 73-178: a LangChain runnable sequence (rephrase, retrieve,
      answer) wrapped in [RunnableWithMessageHistory] and driven by a
      readline loop.

    The process is modelled by explicit state passing: a [Process] holds the
    disk, the heap cell of the one [ChatMessageHistory] object, the state of
    the outside world (model endpoints, disk faults) and the trace of effects
    in the order they happen.  Code that can throw returns a [Result].
    Library calls the script makes (node:fs, node:crypto, LangChain) are
    modelled by what they do to that state; what only the outside world
    decides (an embedding, a completion, a search result, whether a write
    reaches the disk) is an operation of the [External] interface. *)

From Stdlib Require Import ZArith List String Ascii Lia.
From stdpp Require Import gmap strings list fin_maps.
Import ListNotations.

(** ** SHA-256 (FIPS 180-4), as computed by
       [crypto.createHash('sha256').update(buf).digest('hex')] *)

Module Sha256.
Local Open Scope Z_scope.

(** 32-bit words are [Z] with the wrap-around written out. *)
Definition wrap32 (x : Z) : Z := x mod 2 ^ 32.
Definition add32 (x y : Z) : Z := wrap32 (x + y).
Definition rotr (n x : Z) : Z := Z.lor (Z.shiftr x n) (wrap32 (Z.shiftl x (32 - n))).
Definition not32 (x : Z) : Z := Z.lxor x (2 ^ 32 - 1).
Definition xor3 (x y z : Z) : Z := Z.lxor (Z.lxor x y) z.
Definition Ch (x y z : Z) : Z := Z.lxor (Z.land x y) (Z.land (not32 x) z).
Definition Maj (x y z : Z) : Z := xor3 (Z.land x y) (Z.land x z) (Z.land y z).
Definition bigSigma0 (x : Z) : Z := xor3 (rotr 2 x) (rotr 13 x) (rotr 22 x).
Definition bigSigma1 (x : Z) : Z := xor3 (rotr 6 x) (rotr 11 x) (rotr 25 x).
Definition smallSigma0 (x : Z) : Z := xor3 (rotr 7 x) (rotr 18 x) (Z.shiftr x 3).
Definition smallSigma1 (x : Z) : Z := xor3 (rotr 17 x) (rotr 19 x) (Z.shiftr x 10).

(** Integer cube root, one bit at a time from the top. *)
Fixpoint icbrt_bits (bits : nat) (n r : Z) : Z :=
  match bits with
  | O => r
  | S b => let c := r + 2 ^ Z.of_nat b in
           icbrt_bits b n (if c * c * c <=? n then c else r)
  end.

Definition icbrt (n : Z) : Z := icbrt_bits 48 n 0.

Definition primes64 : list Z :=
  [2; 3; 5; 7; 11; 13; 17; 19; 23; 29; 31; 37; 41; 43; 47; 53;
   59; 61; 67; 71; 73; 79; 83; 89; 97; 101; 103; 107; 109; 113; 127; 131;
   137; 139; 149; 151; 157; 163; 167; 173; 179; 181; 191; 193; 197; 199; 211; 223;
   227; 229; 233; 239; 241; 251; 257; 263; 269; 271; 277; 281; 283; 293; 307; 311].

(** The round constants are the first 32 bits of the fractional parts of the
    cube roots of the first 64 primes; the initial hash value is the same for
    the square roots of the first 8. *)
Definition roundConstants : list Z :=
  Eval vm_compute in map (fun p => wrap32 (icbrt (p * 2 ^ 96))) primes64.

Definition initialHash : list Z :=
  Eval vm_compute in map (fun p => wrap32 (Z.sqrt (p * 2 ^ 64))) (firstn 8 primes64).

Definition bytesOfString (s : string) : list Z :=
  map (fun c => Z.of_N (N_of_ascii c)) (list_ascii_of_string s).

Fixpoint bigEndian (width : nat) (x : Z) : list Z :=
  match width with
  | O => []
  | S w => (Z.shiftr x (8 * Z.of_nat w)) mod 256 :: bigEndian w x
  end.

(** A 1 bit, zeros up to 56 mod 64 bytes, then the bit length on 64 bits. *)
Definition padding (len : Z) : list Z :=
  128 :: repeat 0 (Z.to_nat ((55 - len) mod 64)) ++ bigEndian 8 (8 * len).

Fixpoint wordsOfBytes (bs : list Z) : list Z :=
  match bs with
  | b3 :: b2 :: b1 :: b0 :: rest =>
      (Z.shiftl b3 24 + Z.shiftl b2 16 + Z.shiftl b1 8 + b0) :: wordsOfBytes rest
  | _ => []
  end.

Fixpoint blocksOfWords (fuel : nat) (ws : list Z) : list (list Z) :=
  match fuel, ws with
  | S f, _ :: _ => firstn 16 ws :: blocksOfWords f (skipn 16 ws)
  | _, _ => []
  end.

(** The message schedule, newest word first while it is being extended. *)
Fixpoint extendSchedule (n : nat) (rev_ws : list Z) : list Z :=
  match n with
  | O => rev_ws
  | S k =>
      let w := add32 (add32 (smallSigma1 (nth 1 rev_ws 0)) (nth 6 rev_ws 0))
                     (add32 (smallSigma0 (nth 14 rev_ws 0)) (nth 15 rev_ws 0)) in
      extendSchedule k (w :: rev_ws)
  end.

Definition schedule (block : list Z) : list Z := rev (extendSchedule 48 (rev block)).

Record HashState := mkHash { ha : Z; hb : Z; hc : Z; hd : Z; he : Z; hf : Z; hg : Z; hh : Z }.

Definition round (s : HashState) (kw : Z * Z) : HashState :=
  let t1 := add32 (add32 (add32 (hh s) (bigSigma1 (he s)))
                         (add32 (Ch (he s) (hf s) (hg s)) (fst kw))) (snd kw) in
  let t2 := add32 (bigSigma0 (ha s)) (Maj (ha s) (hb s) (hc s)) in
  mkHash (add32 t1 t2) (ha s) (hb s) (hc s) (add32 (hd s) t1) (he s) (hf s) (hg s).

Definition compress (h : HashState) (block : list Z) : HashState :=
  let s := fold_left round (combine roundConstants (schedule block)) h in
  mkHash (add32 (ha h) (ha s)) (add32 (hb h) (hb s)) (add32 (hc h) (hc s))
         (add32 (hd h) (hd s)) (add32 (he h) (he s)) (add32 (hf h) (hf s))
         (add32 (hg h) (hg s)) (add32 (hh h) (hh s)).

Definition initialState : HashState :=
  mkHash (nth 0 initialHash 0) (nth 1 initialHash 0) (nth 2 initialHash 0)
         (nth 3 initialHash 0) (nth 4 initialHash 0) (nth 5 initialHash 0)
         (nth 6 initialHash 0) (nth 7 initialHash 0).

Definition digest (msg : list Z) : HashState :=
  let padded := msg ++ padding (Z.of_nat (List.length msg)) in
  let ws := wordsOfBytes padded in
  fold_left compress (blocksOfWords (List.length ws) ws) initialState.

Definition hexDigit (d : Z) : ascii :=
  ascii_of_N (Z.to_N (if d <? 10 then 48 + d else 87 + d)).

Fixpoint hexWord (digits : nat) (x : Z) : string :=
  match digits with
  | O => EmptyString
  | S d => String (hexDigit ((Z.shiftr x (4 * Z.of_nat d)) mod 16)) (hexWord d x)
  end.

(** [digest('hex')]: the eight state words, most significant nibble first,
    in lower case. *)
Definition hex (h : HashState) : string :=
  (hexWord 8 (ha h) ++ hexWord 8 (hb h) ++ hexWord 8 (hc h) ++ hexWord 8 (hd h) ++
   hexWord 8 (he h) ++ hexWord 8 (hf h) ++ hexWord 8 (hg h) ++ hexWord 8 (hh h))%string.

Definition sha256_hex (data : string) : string := hex (digest (bytesOfString data)).

End Sha256.

(** ** Data model *)

Definition nl : string := String (ascii_of_nat 10) EmptyString.

(** What a call can throw.  The first three are node:fs errors; the next
    four are the failures the outside world can answer a call with. *)
Inductive Error :=
| ENOENT (path : string)
| EACCES (path : string)
| EISDIR (path : string)
| ParseError
| EmbeddingError
| StorageError
| ModelCallError
| VectorsLengthMismatch
| MissingInput (variable : string)
| SessionIdRequired.

Inductive Result (A : Type) :=
| Ok (value : A)
| Throw (e : Error).
Arguments Ok {A} value.
Arguments Throw {A} e.

(** LangChain's [Document]. *)
Record Document := { pageContent : string; metadata : list (string * string) }.

(** LangChain's message classes ([role] user is [HumanMessage], assistant is
    [AIMessage]). *)
Inductive BaseMessage :=
| SystemMessage (content : string)
| HumanMessage (content : string)
| AIMessage (content : string).

(** The fields [new ChatOpenAI({...})] is given; [temperature] holds the
    literal as written, [None] when the field is left out. *)
Record ChatOpenAI := { temperature : option string; modelName : string }.

(** How a [save] of the vector store ends: on disk, or failed with the
    directory untouched or torn. *)
Inductive SaveOutcome :=
| Saved
| SaveFailed (e : Error) (torn : bool).

(** What the outside world decides.  [World] is its state; every call may
    change it, so that two calls with the same arguments may answer
    differently. *)
Class External := {
  World : Type;
  Vector : Type;
  (** [OpenAIEmbeddings.embedDocuments] *)
  embedDocuments : list string -> World -> Result (list Vector) * World;
  (** [ChatOpenAI.invoke]: the content of the returned [AIMessage] *)
  chatCompletion : ChatOpenAI -> list BaseMessage -> World -> Result string * World;
  (** [VectorStoreRetriever.invoke] on a loaded store *)
  similaritySearch : list (Vector * Document) -> string -> World -> Result (list Document) * World;
  (** [CSVLoader]'s parser: path and text to documents *)
  parseCSV : string -> string -> Result (list Document);
  (** whether [HNSWLib.save] reaches the disk *)
  persist : string -> World -> SaveOutcome * World
}.

(** The effects of a run, oldest first. *)
Inductive Event :=
| EmbedCall (texts : list string)
| IndexSaved (directory : string)
| FileWritten (path : string) (data : string)
| ChatCall (model : ChatOpenAI) (prompt : list BaseMessage)
| RetrieveCall (query : string)
| Stdout (text : string).

(** A value of the object a runnable is invoked with. *)
Inductive Value :=
| VString (s : string)
| VMessages (messages : list BaseMessage)
| VMessage (message : BaseMessage).

(** ** Constants (index.js, lines 16-19) *)

Definition MODEL_NAME : string := "gpt-3.5-turbo-1106".
Definition CSV_FILE_PATH : string := "docs/sample_qa.csv".
Definition HASH_FILE_PATH : string := "docs/sample_qa_hash.txt".
Definition DIRECTORY : string := "./vector_db".

(** JavaScript's [!v] and [a !== v] for [v] a string or [undefined]. *)
Definition truthy (v : option string) : bool :=
  match v with
  | Some (String _ _) => true
  | _ => false
  end.

Definition strictNotEqual (a : string) (v : option string) : bool :=
  match v with
  | Some b => negb (String.eqb a b)
  | None => true
  end.

(** [Array.prototype.join] *)
Fixpoint join (sep : string) (parts : list string) : string :=
  match parts with
  | [] => ""
  | [s] => s
  | s :: rest => s +:+ sep +:+ join sep rest
  end.

(** *** Lines 73-77 *)

Definition convertDocsToString (documents : list Document) : string :=
  join nl (map (fun document => "<doc>" +:+ nl +:+ pageContent document +:+ nl +:+ "</doc>")
               documents).

(** *** Prompt templates (lines 89-100 and 113-131)

    A template string is a list of literal segments and [{variable}]
    holes; a chat prompt is a list of role-tagged templates and
    [MessagesPlaceholder]s. *)

Inductive Segment :=
| Lit (text : string)
| Hole (variable : string).

Inductive Role := system | human.

Inductive PromptPart :=
| MessageTemplate (role : Role) (template : list Segment)
| MessagesPlaceholder (variableName : string).

Definition REPHRASE_QUESTION_SYSTEM_TEMPLATE : list Segment :=
  [Lit ("Given the following conversation and a follow up question, " +:+ nl +:+
        "rephrase the follow up question to be a standalone question.")].

Definition rephraseQuestionChainPrompt : list PromptPart :=
  [MessageTemplate system REPHRASE_QUESTION_SYSTEM_TEMPLATE;
   MessagesPlaceholder "history";
   MessageTemplate human
     [Lit ("Rephrase the following question as a standalone question:" +:+ nl);
      Hole "question"]].

Definition ANSWER_CHAIN_SYSTEM_TEMPLATE : list Segment :=
  [Lit ("You are an experienced customer service representative, " +:+ nl +:+
        "expert at interpreting and answering questions based on provided sources." +:+ nl +:+
        "Using the below provided context and chat history, " +:+ nl +:+
        "answer the user's question to the best of " +:+ nl +:+
        "your ability " +:+ nl +:+
        "using only the resources provided. Be verbose!. If you don't know the answer, just suggest the customer to contact customer service for human assistance." +:+ nl +:+
        nl +:+
        "<context>" +:+ nl);
   Hole "context";
   Lit (nl +:+ "</context>")].

Definition answerGenerationChainPrompt : list PromptPart :=
  [MessageTemplate system ANSWER_CHAIN_SYSTEM_TEMPLATE;
   MessagesPlaceholder "history";
   MessageTemplate human
     [Lit ("Now, answer this question using the previous context and chat history:" +:+ nl);
      Hole "question"]].

(** [input.key] read as a string. *)
Definition getString (key : string) (input : gmap string Value) : Result string :=
  match input !! key with
  | Some (VString s) => Ok s
  | _ => Throw (MissingInput key)
  end.

Fixpoint formatTemplate (template : list Segment) (input : gmap string Value) : Result string :=
  match template with
  | [] => Ok ""
  | Lit text :: rest =>
      match formatTemplate rest input with
      | Ok tail => Ok (text +:+ tail)
      | Throw e => Throw e
      end
  | Hole variable :: rest =>
      match getString variable input with
      | Ok s =>
          match formatTemplate rest input with
          | Ok tail => Ok (s +:+ tail)
          | Throw e => Throw e
          end
      | Throw e => Throw e
      end
  end.

Definition messageOf (role : Role) (content : string) : BaseMessage :=
  match role with
  | system => SystemMessage content
  | human => HumanMessage content
  end.

(** [ChatPromptTemplate.formatMessages] *)
Fixpoint formatMessages (parts : list PromptPart) (input : gmap string Value)
  : Result (list BaseMessage) :=
  match parts with
  | [] => Ok []
  | MessageTemplate role template :: rest =>
      match formatTemplate template input with
      | Ok content =>
          match formatMessages rest input with
          | Ok tail => Ok (messageOf role content :: tail)
          | Throw e => Throw e
          end
      | Throw e => Throw e
      end
  | MessagesPlaceholder variableName :: rest =>
      match input !! variableName with
      | Some (VMessages messages) =>
          match formatMessages rest input with
          | Ok tail => Ok (messages ++ tail)
          | Throw e => Throw e
          end
      | _ => Throw (MissingInput variableName)
      end
  end.

(** [StringOutputParser]: the content of the message. *)
Definition StringOutputParser (message : BaseMessage) : string :=
  match message with
  | SystemMessage content | HumanMessage content | AIMessage content => content
  end.

Section Program.
Context {E : External}.

(** A node of the file system: a regular file with its permissions, or the
    directory a vector store was saved to.  File contents and JavaScript
    strings are both [string]: the sidecar holds the ASCII digest that
    [writeFileSync] wrote, which [readFileSync(_, 'utf-8')] returns as it is. *)
Inductive Node :=
| File (readable writable : bool) (data : string)
| IndexBundle (store : list (Vector * Document))
| TornBundle.

Record Process := {
  world : World;
  disk : gmap string Node;
  heap : gmap nat (list BaseMessage);
  trace : list Event
}.

Definition M (A : Type) : Type := Process -> Result A * Process.

#[export] Instance M_ret : MRet M := fun A x p => (Ok x, p).

#[export] Instance M_bind : MBind M := fun A B k c p =>
  match c p with
  | (Ok x, p') => k x p'
  | (Throw e, p') => (Throw e, p')
  end.

Definition throw {A} (e : Error) : M A := fun p => (Throw e, p).

Definition lift {A} (r : Result A) : M A := fun p => (r, p).

Definition log (ev : Event) : M unit := fun p =>
  (Ok tt, {| world := world p; disk := disk p; heap := heap p; trace := trace p ++ [ev] |}).

Definition external {A} (call : World -> A * World) : M A := fun p =>
  let '(r, w) := call (world p) in
  (Ok r, {| world := w; disk := disk p; heap := heap p; trace := trace p |}).

Definition setNode (path : string) (n : Node) : M unit := fun p =>
  (Ok tt, {| world := world p; disk := <[path := n]> (disk p); heap := heap p; trace := trace p |}).

(** *** node:fs *)

Definition existsSync (path : string) : M bool := fun p =>
  (Ok (match disk p !! path with Some _ => true | None => false end), p).

Definition readFileSync (path : string) : M string := fun p =>
  match disk p !! path with
  | None => (Throw (ENOENT path), p)
  | Some (File true _ data) => (Ok data, p)
  | Some (File false _ _) => (Throw (EACCES path), p)
  | Some _ => (Throw (EISDIR path), p)
  end.

Definition writeFileSync (path data : string) : M unit := fun p =>
  match disk p !! path with
  | None => (setNode path (File true true data) ;; log (FileWritten path data)) p
  | Some (File r true _) => (setNode path (File r true data) ;; log (FileWritten path data)) p
  | Some (File _ false _) => (Throw (EACCES path), p)
  | Some _ => (Throw (EISDIR path), p)
  end.

(** *** Lines 30-35 *)

Definition calculateHash (filePath : string) : M string :=
  fileBuffer ← readFileSync filePath;
  mret (Sha256.sha256_hex fileBuffer).

(** *** LangChain: loader and vector store *)

Definition CSVLoader_load (filePath : string) : M (list Document) :=
  text ← readFileSync filePath;
  lift (parseCSV filePath text).

Definition HNSWLib_fromDocuments (docs : list Document) : M (list (Vector * Document)) :=
  let texts := map pageContent docs in
  log (EmbedCall texts) ;;
  embedded ← external (embedDocuments texts);
  vectors ← lift embedded;
  if Nat.eqb (length vectors) (length docs)
  then mret (zip vectors docs)
  else throw VectorsLengthMismatch.

Definition HNSWLib_save (store : list (Vector * Document)) (directory : string) : M unit :=
  outcome ← external (persist directory);
  match outcome with
  | Saved => setNode directory (IndexBundle store) ;; log (IndexSaved directory)
  | SaveFailed e torn =>
      (if torn then setNode directory TornBundle else mret tt) ;; throw e
  end.

Definition HNSWLib_load (directory : string) : M (list (Vector * Document)) := fun p =>
  match disk p !! directory with
  | Some (IndexBundle store) => (Ok store, p)
  | _ => (Throw StorageError, p)
  end.

(** *** Lines 38-64: change detection, rebuild, load *)

(** Lines 40-46. *)
Definition readPreviousHash : M (option string) :=
  found ← existsSync HASH_FILE_PATH;
  if found : bool
  then previousHash ← readFileSync HASH_FILE_PATH; mret (Some previousHash)
  else mret None.

(** The condition of line 50. *)
Definition shouldReindex (currentHash : string) (previousHash : option string) : bool :=
  negb (truthy previousHash) || strictNotEqual currentHash previousHash.

(** Lines 38-50: the fingerprint of the corpus and whether to re-index. *)
Definition changeDetection : M (string * bool) :=
  currentHash ← calculateHash CSV_FILE_PATH;
  previousHash ← readPreviousHash;
  mret (currentHash, shouldReindex currentHash previousHash).

(** Lines 52-60: the body of the [if]. *)
Definition rebuild (currentHash : string) : M unit :=
  docs ← CSVLoader_load CSV_FILE_PATH;
  vectorstore_2 ← HNSWLib_fromDocuments docs;
  HNSWLib_save vectorstore_2 DIRECTORY ;;
  writeFileSync HASH_FILE_PATH currentHash.

(** Lines 38-64. *)
Definition indexing : M (list (Vector * Document)) :=
  '(currentHash, stale) ← changeDetection;
  (if stale : bool then rebuild currentHash else mret tt) ;;
  HNSWLib_load DIRECTORY.

(** *** In-memory [ChatMessageHistory]: an object on the heap, named by its
        address, so that two holders of the address share its messages. *)

Definition newChatMessageHistory : M nat := fun p =>
  let address := fresh (dom (heap p)) in
  (Ok address,
   {| world := world p; disk := disk p; heap := <[address := []]> (heap p); trace := trace p |}).

(** The messages of the history at an address ([this.messages]). *)
Definition messagesOf (history : nat) (p : Process) : list BaseMessage :=
  default [] (heap p !! history).

Definition getMessages (history : nat) : M (list BaseMessage) := fun p =>
  (Ok (messagesOf history p), p).

Definition addMessages (history : nat) (messages : list BaseMessage) : M unit := fun p =>
  (Ok tt,
   {| world := world p; disk := disk p;
      heap := <[history := messagesOf history p ++ messages]> (heap p);
      trace := trace p |}).

(** [RunnablePassthrough.assign({ key: runnable })] *)
Definition RunnablePassthrough_assign (key : string)
    (runnable : gmap string Value -> M Value) (input : gmap string Value)
  : M (gmap string Value) :=
  value ← runnable input;
  mret (<[key := value]> input).

Definition ChatOpenAI_invoke (model : ChatOpenAI) (prompt : list BaseMessage) : M BaseMessage :=
  log (ChatCall model prompt) ;;
  answered ← external (chatCompletion model prompt);
  content ← lift answered;
  mret (AIMessage content).

Section Chain.
(** Line 64 and line 148: the store loaded at startup and the address of the
    one [ChatMessageHistory] the script creates. *)
Variable loadedVectorStore : list (Vector * Document).
Variable messageHistory : nat.

(** Line 69. *)
Definition retriever (query : string) : M (list Document) :=
  log (RetrieveCall query) ;;
  found ← external (similaritySearch loadedVectorStore query);
  lift found.

(** Lines 80-84. *)
Definition documentRetrievalChain (input : gmap string Value) : M string :=
  question ← lift (getString "question" input);
  documents ← retriever question;
  mret (convertDocsToString documents).

(** Lines 102-105. *)
Definition rephraseQuestionChain (input : gmap string Value) : M BaseMessage :=
  prompt ← lift (formatMessages rephraseQuestionChainPrompt input);
  ChatOpenAI_invoke {| temperature := Some "0.1"; modelName := MODEL_NAME |} prompt.

(** Lines 136-146. *)
Definition conversationalRetrievalChain (input : gmap string Value) : M string :=
  input ← RunnablePassthrough_assign "standalone_question"
            (fun input => message ← rephraseQuestionChain input; mret (VMessage message)) input;
  input ← RunnablePassthrough_assign "context"
            (fun input => context ← documentRetrievalChain input; mret (VString context)) input;
  prompt ← lift (formatMessages answerGenerationChainPrompt input);
  message ← ChatOpenAI_invoke {| temperature := None; modelName := MODEL_NAME |} prompt;
  mret (StringOutputParser message).

(** Line 152: [(_sessionId) => messageHistory]. *)
Definition getMessageHistory (_sessionId : string) : nat := messageHistory.

(** Lines 150-155, [finalRetrievalChain.invoke(input, { configurable: { sessionId } })].
    [RunnableWithMessageHistory] refuses a missing or empty session id, puts
    the history's messages under [historyMessagesKey], runs the wrapped
    runnable and, when that has returned, appends the input under
    [inputMessagesKey] as a [HumanMessage] and the output as an [AIMessage]. *)
Definition finalRetrievalChain_invoke (input : gmap string Value) (sessionId : string)
  : M string :=
  (if String.eqb sessionId "" then throw SessionIdRequired else mret tt) ;;
  let history := getMessageHistory sessionId in
  messages ← getMessages history;
  let input := <["history" := VMessages messages]> input in
  output ← conversationalRetrievalChain input;
  question ← lift (getString "question" input);
  addMessages history [HumanMessage question; AIMessage output] ;;
  mret output.

(** Lines 165-178.  [lines] is what the user will type, one question per
    line; a rejected [invoke] is not caught, so the loop ends there. *)
Fixpoint askQuestion (lines : list string) : M unit :=
  log (Stdout "Ask a question: ") ;;
  match lines with
  | [] => mret tt
  | question :: rest =>
      finalResult ← finalRetrievalChain_invoke {[ "question" := VString question ]} "test";
      log (Stdout ("AI Response: " +:+ finalResult +:+ nl)) ;;
      askQuestion rest
  end.

End Chain.

(** The whole script. *)
Definition main (lines : list string) : M unit :=
  loadedVectorStore ← indexing;
  messageHistory ← newChatMessageHistory;
  askQuestion loadedVectorStore messageHistory lines.

(** The process as it starts: nothing on the heap, nothing done yet. *)
Definition boot (w : World) (files : gmap string Node) : Process :=
  {| world := w; disk := files; heap := ∅; trace := [] |}.

End Program.

Arguments Process {E}.
Arguments Node {E}.
Arguments M {E} A.

(** ** Observations used to state properties *)

Section Predicates.
Context {E : External}.

(** A computation that touches neither the heap nor the disk. *)
Definition frame {A} (c : M A) : Prop :=
  forall p, heap (c p).2 = heap p /\ disk (c p).2 = disk p.

(** A computation whose new events all satisfy [Φ]. *)
Definition emits {A} (Φ : Event -> Prop) (c : M A) : Prop :=
  forall p, exists evs, trace (c p).2 = trace p ++ evs /\ Forall Φ evs.

End Predicates.

(** What a run wrote to standard output, in order. *)
Definition printed (evs : list Event) : list string :=
  omap (fun ev => match ev with Stdout text => Some text | _ => None end) evs.

(** The queries a run searched the vector store for, in order. *)
Definition searched (evs : list Event) : list string :=
  omap (fun ev => match ev with RetrieveCall query => Some query | _ => None end) evs.

(** The history that turns with these questions and answers make up. *)
Definition transcript (questions answers : list string) : list BaseMessage :=
  concat (zip_with (fun q a => [HumanMessage q; AIMessage a]) questions answers).

(** The human message that closes the rephrasing prompt and the answering
    prompt for a question (lines 96-99 and 127-130). *)
Definition rephraseRequest (question : string) : BaseMessage :=
  HumanMessage ("Rephrase the following question as a standalone question:" +:+ nl +:+ question).

Definition answerRequest (question : string) : BaseMessage :=
  HumanMessage ("Now, answer this question using the previous context and chat history:"
                +:+ nl +:+ question).

(** What a turn on [question] may do to the outside: search the store for
    [question] itself, ask the rephrasing model (the one given a
    temperature) to rephrase it, ask the answering model to answer it. *)
Definition turnEvent (question : string) (ev : Event) : Prop :=
  match ev with
  | RetrieveCall query => query = question
  | ChatCall model prompt =>
      match temperature model with
      | Some _ => last prompt = Some (rephraseRequest question)
      | None => last prompt = Some (answerRequest question)
      end
  | _ => False
  end.

(** Every character of a string passes a test. *)
Fixpoint stringAll (test : ascii -> bool) (s : string) : bool :=
  match s with
  | EmptyString => true
  | String c rest => test c && stringAll test rest
  end.

(** [0-9a-f]. *)
Definition isLowerHex (c : ascii) : bool :=
  let n := nat_of_ascii c in
  (Nat.leb 48 n && Nat.leb n 57) || (Nat.leb 97 n && Nat.leb n 102).

(** A template with its holes filled from [input] (the empty string when a
    hole has no value). *)
Definition rendered (template : list Segment) (input : gmap string Value) : string :=
  match formatTemplate template input with
  | Ok text => text
  | Throw _ => ""
  end.

(** The two chat models (lines 104 and 144) and the prompts they are sent
    for a question asked on top of a history. *)
Definition rephraseModel : ChatOpenAI :=
  {| temperature := Some "0.1"; modelName := MODEL_NAME |}.

Definition answerModel : ChatOpenAI :=
  {| temperature := None; modelName := MODEL_NAME |}.

Definition rephrasePrompt (history : list BaseMessage) (question : string)
  : list BaseMessage :=
  SystemMessage (rendered REPHRASE_QUESTION_SYSTEM_TEMPLATE ∅)
    :: history ++ [rephraseRequest question].

Definition answerPrompt (context : string) (history : list BaseMessage) (question : string)
  : list BaseMessage :=
  SystemMessage (rendered ANSWER_CHAIN_SYSTEM_TEMPLATE {[ "context" := VString context ]})
    :: history ++ [answerRequest question].

Section Outcomes.
Context {E : External}.

(** The chain written out as its three calls: the rephrasing model, the
    search, the answering model.  The rephrasing model's answer is received
    and dropped. *)
Definition chainOutcome (store : list (Vector * Document)) (question : string)
    (history : list BaseMessage) (p : Process) : Result string * Process :=
  let '(rephrased, w1) :=
    chatCompletion rephraseModel (rephrasePrompt history question) (world p) in
  let t1 := trace p ++ [ChatCall rephraseModel (rephrasePrompt history question)] in
  match rephrased with
  | Throw e => (Throw e, {| world := w1; disk := disk p; heap := heap p; trace := t1 |})
  | Ok _ =>
      let '(found, w2) := similaritySearch store question w1 in
      let t2 := t1 ++ [RetrieveCall question] in
      match found with
      | Throw e => (Throw e, {| world := w2; disk := disk p; heap := heap p; trace := t2 |})
      | Ok documents =>
          let prompt := answerPrompt (convertDocsToString documents) history question in
          let '(answered, w3) := chatCompletion answerModel prompt w2 in
          (answered,
           {| world := w3; disk := disk p; heap := heap p;
              trace := t2 ++ [ChatCall answerModel prompt] |})
      end
  end.

(** A turn written out: the chain on the history as it stands, and on
    success the question and the answer appended to it. *)
Definition turnOutcome (store : list (Vector * Document)) (messageHistory : nat)
    (question : string) (p : Process) : Result string * Process :=
  match chainOutcome store question (messagesOf messageHistory p) p with
  | (Ok output, p') =>
      (Ok output,
       {| world := world p'; disk := disk p';
          heap := <[messageHistory :=
                     messagesOf messageHistory p ++ [HumanMessage question; AIMessage output]]>
                  (heap p');
          trace := trace p' |})
  | (Throw e, p') => (Throw e, p')
  end.

End Outcomes.

(** The same outside world, but with every answer of the rephrasing model
    (the model given a temperature) replaced by [g] of it. *)
Definition withRephrasing (g : string -> string) (E : External) : External := {|
  World := @World E;
  Vector := @Vector E;
  embedDocuments := @embedDocuments E;
  chatCompletion := fun model prompt w =>
    match temperature model with
    | Some _ =>
        let '(r, w') := @chatCompletion E model prompt w in
        (match r with Ok content => Ok (g content) | Throw e => Throw e end, w')
    | None => @chatCompletion E model prompt w
    end;
  similaritySearch := @similaritySearch E;
  parseCSV := @parseCSV E;
  persist := @persist E
|}.

(** ** A scripted outside world, to run the program on

    The chat endpoint serves [budget] completions and then fails; the
    rephrasing model (the one with a temperature) always proposes the same
    standalone question, the answering model the same answer.  Embeddings are
    text lengths, a search returns the store's documents in order, the CSV
    parser makes one document per line, and saves reach the disk. *)

Module Demo.

Fixpoint splitLines (current : string) (text : string) : list string :=
  match text with
  | EmptyString => if String.eqb current "" then [] else [current]
  | String c rest =>
      if Ascii.eqb c (ascii_of_nat 10)
      then current :: splitLines "" rest
      else splitLines (current +:+ String c EmptyString) rest
  end.

Definition standalone : string := "What is the policy on returning a product?".
Definition answer : string := "Please contact customer service.".

#[export] Instance scripted : External := {|
  World := nat;
  Vector := nat;
  embedDocuments := fun texts budget => (Ok (map String.length texts), budget);
  chatCompletion := fun model prompt budget =>
    match budget with
    | O => (Throw ModelCallError, O)
    | S remaining =>
        (Ok (match temperature model with Some _ => standalone | None => answer end), remaining)
    end;
  similaritySearch := fun store query budget => (Ok (map snd store), budget);
  parseCSV := fun path text =>
    Ok (map (fun line => {| pageContent := line; metadata := [("source", path)] |})
            (splitLines "" text));
  persist := fun directory budget => (Saved, budget)
|}.

Definition corpus : string :=
  "question: What is your refund policy? answer: Refunds within 30 days." +:+ nl +:+
  "question: Do you ship abroad? answer: Yes, worldwide." +:+ nl.

(** Three retrieved documents, closest first. *)
Definition refunds : Document := {| pageContent := "refunds"; metadata := [] |}.
Definition shipping : Document := {| pageContent := "shipping"; metadata := [] |}.
Definition returns : Document := {| pageContent := "returns"; metadata := [] |}.
Definition retrieved : list Document := [refunds; shipping; returns].

(** A first start: the corpus and nothing else on disk. *)
Definition firstRun (budget : nat) : Process :=
  boot budget {[ CSV_FILE_PATH := File true true corpus ]}.

(** The store that the first start builds, and the process it leaves. *)
Definition indexed : list (nat * Document) :=
  [ (69, {| pageContent := "question: What is your refund policy? answer: Refunds within 30 days.";
            metadata := [("source", CSV_FILE_PATH)] |});
    (53, {| pageContent := "question: Do you ship abroad? answer: Yes, worldwide.";
            metadata := [("source", CSV_FILE_PATH)] |}) ].

Definition secondRun (budget : nat) : Process := (indexing (firstRun budget)).2.

(** A start with a sidecar that exists and cannot be read, and one with a
    sidecar that is empty. *)
Definition lockedSidecar : Process :=
  boot 0 (<[ HASH_FILE_PATH := File false true "0f" ]>
            {[ CSV_FILE_PATH := File true true corpus ]}).

Definition emptySidecar : Process :=
  boot 0 (<[ HASH_FILE_PATH := File true true "" ]>
            {[ CSV_FILE_PATH := File true true corpus ]}).

(** A start with a stale sidecar that cannot be written, and one with no
    corpus file. *)
Definition readOnlySidecar : Process :=
  boot 0 (<[ HASH_FILE_PATH := File true false "0f" ]>
            {[ CSV_FILE_PATH := File true true corpus ]}).

Definition noCorpus : Process := boot 0 ∅.

(** A conversation: the history object at address 0, empty. *)
Definition fresh (budget : nat) : Process :=
  {| world := budget; disk := ∅; heap := {[ 0 := [] ]}; trace := [] |}.

(** The scripted world with every rephrasing replaced by one fixed
    sentence, and the same conversation started in it. *)
Definition rephrasedElsewhere : External :=
  withRephrasing (fun _ => "Anything else?") scripted.

Definition freshElsewhere (budget : nat) : @Process rephrasedElsewhere :=
  @Build_Process rephrasedElsewhere budget ∅ {[ 0 := [] ]} [].

Definition firstQuestion : string := "What is your refund policy?".
Definition followUp : string := "What about returns?".

Definition ask (question sessionId : string) : Process -> Result string * Process :=
  finalRetrievalChain_invoke indexed 0 {[ "question" := VString question ]} sessionId.

End Demo.

(** * Properties *)

(** ** Strings *)

Lemma append_assoc (a b c : string) : (a +:+ b) +:+ c = a +:+ (b +:+ c).
Proof.
  induction a as [|ch a IH]; [reflexivity|].
  change (String ch ((a +:+ b) +:+ c) = String ch (a +:+ (b +:+ c))).
  now f_equal.
Qed.

Lemma append_empty_r (a : string) : a +:+ "" = a.
Proof.
  induction a as [|ch a IH]; [reflexivity|].
  change (String ch (a +:+ "") = String ch a).
  now f_equal.
Qed.

(** ** The context string (lines 73-77) *)

Section Join.
Variable f : Document -> string.

Lemma join_map_cons (d : Document) (l : list Document) :
  join nl (map f (d :: l)) = f d +:+ foldr (fun x rest => nl +:+ f x +:+ rest) "" l.
Proof.
  revert d. induction l as [|d' l IH]; intros d.
  - simpl. now rewrite append_empty_r.
  - change (join nl (map f (d :: d' :: l)))
      with (f d +:+ nl +:+ join nl (map f (d' :: l))).
    now rewrite IH.
Qed.

Lemma join_map_app (l1 : list Document) (d : Document) (l2 : list Document) :
  join nl (map f (l1 ++ d :: l2)) =
  foldr (fun x rest => f x +:+ nl +:+ rest) "" l1 +:+ join nl (map f (d :: l2)).
Proof.
  induction l1 as [|x l1 IH]; [reflexivity|].
  assert (Hstep : join nl (map f ((x :: l1) ++ d :: l2))
                  = f x +:+ nl +:+ join nl (map f (l1 ++ d :: l2))).
  { destruct l1; reflexivity. }
  rewrite Hstep, IH. cbn [foldr]. now rewrite !append_assoc.
Qed.

Lemma trail_app_cons (l : list Document) (d : Document) (l' : list Document) :
  foldr (fun x rest => nl +:+ f x +:+ rest) "" (l ++ d :: l') =
  nl +:+ foldr (fun x rest => f x +:+ nl +:+ rest) "" l
     +:+ f d +:+ foldr (fun x rest => nl +:+ f x +:+ rest) "" l'.
Proof.
  induction l as [|x l IH]; [reflexivity|].
  cbn [app foldr]. rewrite IH. now rewrite !append_assoc.
Qed.

Lemma join_map_two (before between after : list Document) (di dj : Document) :
  join nl (map f (before ++ di :: between ++ dj :: after)) =
  foldr (fun x rest => f x +:+ nl +:+ rest) "" before +:+ f di +:+ nl
    +:+ foldr (fun x rest => f x +:+ nl +:+ rest) "" between
    +:+ f dj +:+ foldr (fun x rest => nl +:+ f x +:+ rest) "" after.
Proof. now rewrite join_map_app, join_map_cons, trail_app_cons. Qed.

Lemma join_map_one (before after : list Document) (d : Document) :
  join nl (map f (before ++ d :: after)) =
  foldr (fun x rest => f x +:+ nl +:+ rest) "" before +:+ f d
    +:+ foldr (fun x rest => nl +:+ f x +:+ rest) "" after.
Proof. now rewrite join_map_app, join_map_cons. Qed.

End Join.

Section ContextString.

(** One retrieved document as it stands in the context. *)
Local Abbreviation block d := ("<doc>" +:+ nl +:+ pageContent d +:+ nl +:+ "</doc>").
(** Blocks each followed by a newline, and blocks each preceded by one. *)
Local Abbreviation lead l := (foldr (fun d rest => block d +:+ nl +:+ rest) "" l).
Local Abbreviation trail l := (foldr (fun d rest => nl +:+ block d +:+ rest) "" l).

(** C9. For every list of retrieved documents, the context string is the
    documents' contents, each wrapped as [<doc>\n...\n</doc>], joined by
    newlines, in retrieval order.  No document gives the empty string.
    Every document of the list stands in the string as its block, after the
    blocks of the documents before it and before the blocks of those after
    it (a single document gives its block alone).  When document [i]
    precedes document [j], the string is the blocks before [i], block [i],
    the blocks between, block [j], and the blocks after, with nothing else
    in it. *)
Theorem convertDocsToString_preserves_order (documents : list Document) :
  (documents = [] -> convertDocsToString documents = "") /\
  (forall (i : nat) (d : Document),
     documents !! i = Some d ->
     convertDocsToString documents =
       lead (take i documents) +:+ block d +:+ trail (drop (S i) documents)) /\
  (forall (i j : nat) (di dj : Document),
     documents !! i = Some di ->
     documents !! j = Some dj ->
     i < j ->
     convertDocsToString documents =
       lead (take i documents) +:+ block di +:+ nl
         +:+ lead (take (j - S i) (drop (S i) documents))
         +:+ block dj +:+ trail (drop (S j) documents)).
Proof.
  split; [intros ->; reflexivity|]. split.
  - intros i d Hi.
    pose proof (take_drop_middle _ _ _ Hi) as Hsplit.
    rewrite <- Hsplit at 1. unfold convertDocsToString.
    exact (join_map_one (fun d => block d) _ _ d).
  - intros i j di dj Hi Hj Hlt.
    assert (Hj' : drop (S i) documents !! (j - S i) = Some dj).
    { rewrite lookup_drop. replace (S i + (j - S i)) with j by lia. exact Hj. }
    pose proof (take_drop_middle _ _ _ Hi) as Hsplit1.
    pose proof (take_drop_middle _ _ _ Hj') as Hsplit2.
    rewrite drop_drop in Hsplit2.
    replace (S i + S (j - S i)) with (S j) in Hsplit2 by lia.
    rewrite <- Hsplit1 at 1. rewrite <- Hsplit2 at 1.
    unfold convertDocsToString.
    exact (join_map_two (fun d => block d) _ _ _ di dj).
Qed.

Lemma convertDocsToString_preserves_order_witness :
  convertDocsToString [Demo.refunds] =
    "" +:+ ("<doc>" +:+ nl +:+ "refunds" +:+ nl +:+ "</doc>") +:+ "" /\
  Demo.retrieved !! 0 = Some Demo.refunds /\
  Demo.retrieved !! 2 = Some Demo.returns /\
  0 < 2 /\
  convertDocsToString Demo.retrieved =
    "" +:+ ("<doc>" +:+ nl +:+ "refunds" +:+ nl +:+ "</doc>") +:+ nl
       +:+ (("<doc>" +:+ nl +:+ "shipping" +:+ nl +:+ "</doc>") +:+ nl +:+ "")
       +:+ ("<doc>" +:+ nl +:+ "returns" +:+ nl +:+ "</doc>") +:+ "".
Proof.
  refine (conj _ (conj eq_refl (conj eq_refl (conj (le_S _ _ (le_n 1)) _)))).
  - exact (proj1 (proj2 (convertDocsToString_preserves_order [Demo.refunds]))
             0 Demo.refunds eq_refl).
  - exact (proj2 (proj2 (convertDocsToString_preserves_order Demo.retrieved))
             0 2 Demo.refunds Demo.returns eq_refl eq_refl (le_S _ _ (le_n 1))).
Defined.

End ContextString.

(** ** The digest *)

Lemma hexWord_8_length (x : Z) : String.length (Sha256.hexWord 8 x) = 8.
Proof. reflexivity. Qed.

Lemma string_length_append (a b : string) :
  String.length (a +:+ b) = String.length a + String.length b.
Proof.
  induction a as [|ch a IH]; [reflexivity|].
  change (S (String.length (a +:+ b)) = S (String.length a + String.length b)).
  now f_equal.
Qed.

(** A SHA-256 digest in hex has 64 characters, whatever was hashed. *)
Lemma sha256_hex_length (data : string) : String.length (Sha256.sha256_hex data) = 64.
Proof.
  unfold Sha256.sha256_hex, Sha256.hex.
  rewrite !string_length_append, !hexWord_8_length. reflexivity.
Qed.

Lemma sha256_hex_truthy (data : string) : truthy (Some (Sha256.sha256_hex data)) = true.
Proof.
  pose proof (sha256_hex_length data) as Hlen.
  destruct (Sha256.sha256_hex data); [discriminate Hlen | reflexivity].
Qed.

Lemma sha256_hex_nonempty (data : string) : Sha256.sha256_hex data <> "".
Proof.
  intros Heq. pose proof (sha256_hex_length data) as Hlen.
  rewrite Heq in Hlen. discriminate Hlen.
Qed.

(** ** Change detection and rebuild (lines 38-64) *)

Section Indexing.
Context {E : External}.

Lemma bind_unfold {A B} (c : M A) (k : A -> M B) (p : Process) :
  (c ≫= k) p =
  match c p with
  | (Ok x, p') => k x p'
  | (Throw e, p') => (Throw e, p')
  end.
Proof. reflexivity. Qed.

Lemma calculateHash_readable (p : Process) (w : bool) (data : string) :
  disk p !! CSV_FILE_PATH = Some (File true w data) ->
  calculateHash CSV_FILE_PATH p = (Ok (Sha256.sha256_hex data), p).
Proof.
  intros Hcsv. unfold calculateHash. rewrite bind_unfold.
  unfold readFileSync. rewrite Hcsv. reflexivity.
Qed.

Lemma readPreviousHash_absent (p : Process) :
  disk p !! HASH_FILE_PATH = None -> readPreviousHash p = (Ok None, p).
Proof.
  intros Hside. unfold readPreviousHash. rewrite bind_unfold.
  unfold existsSync. now rewrite Hside.
Qed.

Lemma readPreviousHash_readable (p : Process) (w : bool) (previous : string) :
  disk p !! HASH_FILE_PATH = Some (File true w previous) ->
  readPreviousHash p = (Ok (Some previous), p).
Proof.
  intros Hside. unfold readPreviousHash. rewrite bind_unfold.
  unfold existsSync. rewrite Hside. rewrite bind_unfold.
  unfold readFileSync. now rewrite Hside.
Qed.

Lemma readPreviousHash_unreadable (p : Process) (w : bool) (previous : string) :
  disk p !! HASH_FILE_PATH = Some (File false w previous) ->
  readPreviousHash p = (Throw (EACCES HASH_FILE_PATH), p).
Proof.
  intros Hside. unfold readPreviousHash. rewrite bind_unfold.
  unfold existsSync. rewrite Hside. rewrite bind_unfold.
  unfold readFileSync. now rewrite Hside.
Qed.

Lemma shouldReindex_stored (current previous : string) :
  current <> "" ->
  shouldReindex current (Some previous) = bool_decide (previous <> current).
Proof.
  intros Hne. unfold shouldReindex, strictNotEqual.
  destruct previous as [|ch previous]; cbn [truthy negb orb].
  - symmetry. apply bool_decide_eq_true. congruence.
  - destruct (String.eqb current (String ch previous)) eqn:Heq; cbn [negb].
    + apply String.eqb_eq in Heq. symmetry. apply bool_decide_eq_false. intros H. now apply H.
    + apply String.eqb_neq in Heq. symmetry. apply bool_decide_eq_true. congruence.
Qed.

(** C7. With the corpus readable: when the sidecar does not exist, change
    detection answers true; when it exists and can be read, it answers true
    exactly when the stored fingerprint differs from the SHA-256 digest of
    the corpus file's bytes.  Detection leaves the process as it was. *)
Theorem changeDetection_compares_fingerprints (p : Process) (w : bool) (data : string) :
  disk p !! CSV_FILE_PATH = Some (File true w data) ->
  (disk p !! HASH_FILE_PATH = None ->
   changeDetection p = (Ok (Sha256.sha256_hex data, true), p)) /\
  (forall (w' : bool) (previous : string),
     disk p !! HASH_FILE_PATH = Some (File true w' previous) ->
     changeDetection p =
       (Ok (Sha256.sha256_hex data, bool_decide (previous <> Sha256.sha256_hex data)), p)).
Proof.
  intros Hcsv. split.
  - intros Hside. unfold changeDetection.
    rewrite bind_unfold, (calculateHash_readable p w data Hcsv).
    rewrite bind_unfold, (readPreviousHash_absent p Hside). reflexivity.
  - intros w' previous Hside. unfold changeDetection.
    rewrite bind_unfold, (calculateHash_readable p w data Hcsv).
    rewrite bind_unfold, (readPreviousHash_readable p w' previous Hside).
    cbn [mret M_ret].
    now rewrite (shouldReindex_stored _ _ (sha256_hex_nonempty data)).
Qed.

Lemma bind_inv {A B} (c : M A) (k : A -> M B) (p p'' : Process) (r : Result B) :
  (c ≫= k) p = (r, p'') ->
  (exists x p', c p = (Ok x, p') /\ k x p' = (r, p'')) \/
  (exists e, c p = (Throw e, p'') /\ r = Throw e).
Proof.
  rewrite bind_unfold. destruct (c p) as [[x|e] p'] eqn:Hc; intros H.
  - left. eauto.
  - right. injection H as <- <-. eauto.
Qed.

(** What each library call does to the process. *)

Lemma CSVLoader_load_cases (path : string) (p p' : Process) (r : Result (list Document)) :
  CSVLoader_load path p = (r, p') ->
  p' = p /\
  forall docs, r = Ok docs ->
    exists w data, disk p !! path = Some (File true w data) /\ parseCSV path data = Ok docs.
Proof.
  unfold CSVLoader_load, readFileSync, lift. rewrite bind_unfold.
  intros H. repeat case_match; simplify_eq; split; try done; intros docs Hr; simplify_eq; eauto.
Qed.

Lemma HNSWLib_fromDocuments_cases (docs : list Document) (p p' : Process)
    (r : Result (list (Vector * Document))) :
  HNSWLib_fromDocuments docs p = (r, p') ->
  heap p' = heap p /\ disk p' = disk p /\
  trace p' = trace p ++ [EmbedCall (map pageContent docs)] /\
  forall store, r = Ok store -> store.*2 = docs.
Proof.
  unfold HNSWLib_fromDocuments, log, external, lift, throw.
  cbv [mbind M_bind mret M_ret]. cbn [world disk heap trace].
  destruct (embedDocuments (map pageContent docs) (world p)) as [[vectors|e] w'] eqn:Hembed.
  - destruct (Nat.eqb_spec (length vectors) (length docs)) as [Hlen|Hlen];
      intros H; simplify_eq; cbn; repeat split; try done.
    intros store Hs. simplify_eq. apply snd_zip. lia.
  - intros H; simplify_eq; cbn; repeat split; done.
Qed.

Lemma HNSWLib_save_cases (store : list (Vector * Document)) (directory : string)
    (p p' : Process) (r : Result unit) :
  HNSWLib_save store directory p = (r, p') ->
  heap p' = heap p /\
  ((r = Ok tt /\ trace p' = trace p ++ [IndexSaved directory] /\
    disk p' = <[directory := IndexBundle store]> (disk p)) \/
   (exists e, r = Throw e /\ trace p' = trace p /\
      (disk p' = disk p \/ disk p' = <[directory := TornBundle]> (disk p)))).
Proof.
  unfold HNSWLib_save, log, external, setNode, throw.
  cbv [mbind M_bind mret M_ret]. cbn [world disk heap trace].
  destruct (persist directory (world p)) as [[|e [|]] w'] eqn:Hpersist;
    intros H; simplify_eq; cbn; split; try done; [left | right | right]; eauto 10.
Qed.

Lemma writeFileSync_cases (path data : string) (p p' : Process) (r : Result unit) :
  writeFileSync path data p = (r, p') ->
  heap p' = heap p /\
  ((exists e, r = Throw e /\ p' = p) \/
   (exists readable,
      r = Ok tt /\
      (disk p !! path = None /\ readable = true \/
       exists old, disk p !! path = Some (File readable true old)) /\
      trace p' = trace p ++ [FileWritten path data] /\
      disk p' = <[path := File readable true data]> (disk p))).
Proof.
  unfold writeFileSync, log, setNode.
  cbv [mbind M_bind mret M_ret]. cbn [world disk heap trace].
  intros H. repeat case_match; simplify_eq; cbn; split; try done.
  all: first [ left; eexists; split; [reflexivity | reflexivity]
             | right; eexists; repeat split; eauto ].
Qed.

Lemma HNSWLib_load_cases (directory : string) (p p' : Process)
    (r : Result (list (Vector * Document))) :
  HNSWLib_load directory p = (r, p') ->
  p' = p /\ forall store, r = Ok store -> disk p !! directory = Some (IndexBundle store).
Proof.
  unfold HNSWLib_load. intros H.
  repeat case_match; simplify_eq; split; try done; intros s Hs; simplify_eq; done.
Qed.

(** Every way a rebuild can end: what it added to the trace and what it did
    to the disk. *)
Lemma rebuild_cases (h : string) (p p' : Process) (r : Result unit) :
  rebuild h p = (r, p') ->
  heap p' = heap p /\
  ((exists e, r = Throw e /\ trace p' = trace p /\ disk p' = disk p) \/
   (exists e texts, r = Throw e /\ trace p' = trace p ++ [EmbedCall texts] /\
      (disk p' = disk p \/ disk p' = <[DIRECTORY := TornBundle]> (disk p))) \/
   (exists e texts store, r = Throw e /\
      trace p' = trace p ++ [EmbedCall texts; IndexSaved DIRECTORY] /\
      disk p' = <[DIRECTORY := IndexBundle store]> (disk p)) \/
   (exists w data docs store readable,
      r = Ok tt /\
      disk p !! CSV_FILE_PATH = Some (File true w data) /\
      parseCSV CSV_FILE_PATH data = Ok docs /\
      store.*2 = docs /\
      (disk p !! HASH_FILE_PATH = None /\ readable = true \/
       exists old, disk p !! HASH_FILE_PATH = Some (File readable true old)) /\
      trace p' = trace p ++ [EmbedCall (map pageContent docs); IndexSaved DIRECTORY;
                             FileWritten HASH_FILE_PATH h] /\
      disk p' = <[HASH_FILE_PATH := File readable true h]>
                  (<[DIRECTORY := IndexBundle store]> (disk p)))).
Proof.
  intros H. unfold rebuild in H.
  apply bind_inv in H as [(docs & p1 & Hload & H) | (e & Hload & ->)].
  2: { apply CSVLoader_load_cases in Hload as [-> _]. split; [done|]. left. eauto. }
  apply CSVLoader_load_cases in Hload as [-> Hdocs].
  destruct (Hdocs docs eq_refl) as (w & data & Hcsv & Hparse). clear Hdocs.
  apply bind_inv in H as [(store & p2 & Hbuild & H) | (e & Hbuild & ->)].
  2: { apply HNSWLib_fromDocuments_cases in Hbuild as (Hh & Hd & Ht & _).
       split; [done|]. right; left. exists e, (map pageContent docs). eauto. }
  apply HNSWLib_fromDocuments_cases in Hbuild as (Hh2 & Hd2 & Ht2 & Hstore).
  specialize (Hstore store eq_refl).
  apply bind_inv in H as [([] & p3 & Hsave & H) | (e & Hsave & ->)].
  2: { apply HNSWLib_save_cases in Hsave as (Hh & [(Hr & _) | (e' & _ & Ht & Hd)]);
         [discriminate Hr|].
       split; [congruence|]. right; left. exists e, (map pageContent docs).
       rewrite Ht, Ht2, <- Hd2. split; [done|]. split; [done|].
       destruct Hd as [-> | ->]; eauto. }
  apply HNSWLib_save_cases in Hsave as (Hh3 & [(_ & Ht3 & Hd3) | (e' & Hr & _)]);
    [|discriminate Hr].
  apply writeFileSync_cases in H as (Hh4 & [(e & -> & ->) | (readable & -> & Hold & Ht4 & Hd4)]).
  - split; [congruence|]. right; right; left. exists e, (map pageContent docs), store.
    rewrite Ht3, Ht2, Hd3, Hd2, <- app_assoc. done.
  - split; [congruence|]. right; right; right.
    exists w, data, docs, store, readable.
    rewrite Hd3, Hd2 in Hold, Hd4.
    rewrite lookup_insert_ne in Hold by done.
    rewrite Ht4, Ht3, Ht2, <- !app_assoc. done.
Qed.

(** Every way change detection can end. *)
Lemma changeDetection_cases (p p' : Process) (r : Result (string * bool)) :
  changeDetection p = (r, p') ->
  p' = p /\
  forall h stale, r = Ok (h, stale) ->
    exists w data,
      disk p !! CSV_FILE_PATH = Some (File true w data) /\
      h = Sha256.sha256_hex data /\
      (disk p !! HASH_FILE_PATH = None /\ stale = true \/
       exists w' previous,
         disk p !! HASH_FILE_PATH = Some (File true w' previous) /\
         stale = bool_decide (previous <> h)).
Proof.
  unfold changeDetection, calculateHash, readPreviousHash, existsSync, readFileSync.
  cbv [mbind M_bind mret M_ret].
  destruct (disk p !! CSV_FILE_PATH) as [[[] w data| |]|] eqn:Hcsv;
    try (intros H; simplify_eq; split; [done | intros; discriminate]).
  destruct (disk p !! HASH_FILE_PATH) as [[[] w' previous| |]|] eqn:Hside;
    cbv beta iota zeta; rewrite ?Hside;
    intros H; simplify_eq; try (split; [done | intros; discriminate]).
  - split; [done|]. intros h stale [= <- <-]. exists w, data. repeat split; try done.
    right. exists w', previous. split; [done|].
    apply shouldReindex_stored, sha256_hex_nonempty.
  - split; [done|]. intros h stale [= <- <-]. exists w, data. repeat split; try done.
    left. done.
Qed.

Lemma indexing_unfold (p : Process) :
  indexing p =
  match changeDetection p with
  | (Ok (currentHash, stale), p') =>
      ((if stale then rebuild currentHash else mret tt) ;; HNSWLib_load DIRECTORY) p'
  | (Throw e, p') => (Throw e, p')
  end.
Proof.
  unfold indexing. rewrite bind_unfold.
  destruct (changeDetection p) as [[[h stale]|e] p']; reflexivity.
Qed.

(** C10. When the sidecar exists and is empty, change detection answers
    true, exactly as it does for an absent sidecar ([!previousHash] holds of
    the empty string as of [undefined]), and the startup runs the rebuild
    before it loads the store. *)
Theorem empty_sidecar_triggers_rebuild (p : Process) (w w' : bool) (data : string) :
  disk p !! CSV_FILE_PATH = Some (File true w data) ->
  disk p !! HASH_FILE_PATH = Some (File true w' "") ->
  changeDetection p = (Ok (Sha256.sha256_hex data, true), p) /\
  indexing p = (rebuild (Sha256.sha256_hex data) ;; HNSWLib_load DIRECTORY) p /\
  shouldReindex (Sha256.sha256_hex data) (Some "") =
    shouldReindex (Sha256.sha256_hex data) None.
Proof.
  intros Hcsv Hside.
  assert (Hdetect : changeDetection p = (Ok (Sha256.sha256_hex data, true), p)).
  { unfold changeDetection.
    rewrite bind_unfold, (calculateHash_readable p w data Hcsv).
    rewrite bind_unfold, (readPreviousHash_readable p w' "" Hside). reflexivity. }
  split; [exact Hdetect|]. split; [|reflexivity].
  rewrite indexing_unfold, Hdetect. reflexivity.
Qed.

(** C8, as the code has it. When the sidecar is present but cannot be read,
    reading it throws: change detection and with it the startup fail with
    that error, and nothing is rebuilt or written (the process is left as it
    was).  Only an absent or an empty sidecar counts as no previous
    fingerprint. *)
Theorem unreadable_sidecar_fails_startup
    (p : Process) (w w' : bool) (data previous : string) :
  disk p !! CSV_FILE_PATH = Some (File true w data) ->
  disk p !! HASH_FILE_PATH = Some (File false w' previous) ->
  changeDetection p = (Throw (EACCES HASH_FILE_PATH), p) /\
  indexing p = (Throw (EACCES HASH_FILE_PATH), p).
Proof.
  intros Hcsv Hside.
  assert (Hdetect : changeDetection p = (Throw (EACCES HASH_FILE_PATH), p)).
  { unfold changeDetection.
    rewrite bind_unfold, (calculateHash_readable p w data Hcsv).
    rewrite bind_unfold, (readPreviousHash_unreadable p w' previous Hside). reflexivity. }
  split; [exact Hdetect|].
  rewrite indexing_unfold, Hdetect. reflexivity.
Qed.

(** A startup on a disk whose sidecar holds the corpus's digest and whose
    index directory holds a store: nothing is done but the load. *)
Lemma indexing_up_to_date (q : Process) (w w' : bool) (data : string)
    (store : list (Vector * Document)) :
  disk q !! CSV_FILE_PATH = Some (File true w data) ->
  disk q !! HASH_FILE_PATH = Some (File true w' (Sha256.sha256_hex data)) ->
  disk q !! DIRECTORY = Some (IndexBundle store) ->
  indexing q = (Ok store, q).
Proof.
  intros Hcsv Hside Hdir.
  assert (Hdetect : changeDetection q = (Ok (Sha256.sha256_hex data, false), q)).
  { unfold changeDetection.
    rewrite bind_unfold, (calculateHash_readable q w data Hcsv).
    rewrite bind_unfold, (readPreviousHash_readable q w' _ Hside).
    cbn [mret M_ret].
    rewrite (shouldReindex_stored _ _ (sha256_hex_nonempty data)).
    now rewrite bool_decide_eq_false_2 by (intros H; now apply H). }
  rewrite indexing_unfold, Hdetect, bind_unfold. cbn [mret M_ret].
  unfold HNSWLib_load. now rewrite Hdir.
Qed.

(** What the disk holds after a startup that succeeded. *)
Lemma indexing_ok_disk (p p1 : Process) (store : list (Vector * Document)) :
  indexing p = (Ok store, p1) ->
  exists w w' data,
    disk p1 !! CSV_FILE_PATH = Some (File true w data) /\
    disk p1 !! HASH_FILE_PATH = Some (File true w' (Sha256.sha256_hex data)) /\
    disk p1 !! DIRECTORY = Some (IndexBundle store).
Proof.
  rewrite indexing_unfold.
  destruct (changeDetection p) as [[[h stale]|e] p0] eqn:Hdetect; [|discriminate].
  apply changeDetection_cases in Hdetect as [-> Hok].
  destruct (Hok h stale eq_refl) as (w & data & Hcsv & -> & Hside). clear Hok.
  intros H.
  apply bind_inv in H as [([] & p2 & Hbranch & Hload) | (e & _ & He)]; [|discriminate He].
  apply HNSWLib_load_cases in Hload as [-> Hdir]. specialize (Hdir store eq_refl).
  destruct stale.
  - apply rebuild_cases in Hbranch
      as (_ & [(e & He & _) | [(e & t & He & _) | [(e & t & s & He & _) | Hdone]]]);
      try discriminate He.
    destruct Hdone as (w2 & data2 & docs & store2 & readable & _ & Hcsv2 & _ & _ & Hold & _ & Hdisk).
    assert (readable = true) as ->.
    { destruct Hold as [[_ ->] | [old Hold]]; [done|].
      destruct Hside as [[Hnone _] | (w' & previous & Hsome & _)]; congruence. }
    exists w, true, data. rewrite Hdisk in Hdir |- *.
    rewrite lookup_insert_ne by done. rewrite lookup_insert_ne by done.
    rewrite lookup_insert_eq. done.
  - injection Hbranch as <-.
    destruct Hside as [[_ Hfalse] | (w' & previous & Hsome & Hstale)]; [discriminate|].
    symmetry in Hstale. apply bool_decide_eq_false in Hstale.
    assert (previous = Sha256.sha256_hex data) as ->.
    { destruct (decide (previous = Sha256.sha256_hex data)); [done | contradiction]. }
    eauto 10.
Qed.

(** C5. When a startup has succeeded, a second startup on the disk it left
    (the corpus file unchanged) returns the same store and changes nothing:
    the trace gains no event, so no embedding call is made, and the disk,
    the persisted index with it, is the same. *)
Theorem indexing_idempotent (p p1 q : Process) (store : list (Vector * Document)) :
  indexing p = (Ok store, p1) ->
  disk q = disk p1 ->
  indexing q = (Ok store, q) /\
  trace (indexing q).2 = trace q /\
  disk (indexing q).2 = disk p1.
Proof.
  intros Hfirst Hdisk.
  destruct (indexing_ok_disk p p1 store Hfirst) as (w & w' & data & Hcsv & Hside & Hdir).
  rewrite <- Hdisk in Hcsv, Hside, Hdir.
  rewrite (indexing_up_to_date q w w' data store Hcsv Hside Hdir). done.
Qed.

Lemma then_load_state (c : M unit) (p : Process) :
  ((c ;; HNSWLib_load DIRECTORY) p).2 = (c p).2.
Proof.
  rewrite bind_unfold. destruct (c p) as [[[]|e] p']; [|reflexivity].
  unfold HNSWLib_load. repeat case_match; reflexivity.
Qed.

(** The first-start scenario: with no sidecar, a startup that succeeds made
    exactly one embedding call, one save and one sidecar write, in that
    order, and the sidecar holds the digest of the corpus. *)
Theorem first_start_builds_once (p p' : Process) (w : bool) (data : string)
    (store : list (Vector * Document)) :
  disk p !! CSV_FILE_PATH = Some (File true w data) ->
  disk p !! HASH_FILE_PATH = None ->
  indexing p = (Ok store, p') ->
  exists docs,
    parseCSV CSV_FILE_PATH data = Ok docs /\
    store.*2 = docs /\
    trace p' = trace p ++ [EmbedCall (map pageContent docs); IndexSaved DIRECTORY;
                           FileWritten HASH_FILE_PATH (Sha256.sha256_hex data)] /\
    disk p' !! HASH_FILE_PATH = Some (File true true (Sha256.sha256_hex data)).
Proof.
  intros Hcsv Hside H.
  assert (Hdetect : changeDetection p = (Ok (Sha256.sha256_hex data, true), p)).
  { unfold changeDetection.
    rewrite bind_unfold, (calculateHash_readable p w data Hcsv).
    rewrite bind_unfold, (readPreviousHash_absent p Hside). reflexivity. }
  rewrite indexing_unfold, Hdetect in H.
  apply bind_inv in H as [([] & p2 & Hbranch & Hload) | (e & _ & He)]; [|discriminate He].
  apply HNSWLib_load_cases in Hload as [-> Hdir]. specialize (Hdir store eq_refl).
  apply rebuild_cases in Hbranch
    as (_ & [(e & He & _) | [(e & t & He & _) | [(e & t & s & He & _) | Hdone]]]);
    try discriminate He.
  destruct Hdone
    as (w2 & data2 & docs & store2 & readable & _ & Hcsv2 & Hparse & Hstore & Hold & Ht & Hd).
  assert (data2 = data) as -> by congruence.
  assert (readable = true) as ->.
  { destruct Hold as [[_ ->] | [old Hold]]; [done | congruence]. }
  rewrite Hd in Hdir.
  rewrite lookup_insert_ne in Hdir by done. rewrite lookup_insert_eq in Hdir.
  injection Hdir as ->.
  exists docs. rewrite Hd, lookup_insert_eq. done.
Qed.

(** C6. In every startup, whatever its outcome: the sidecar is written at
    most once, as the last effect, and then the embedding call and the save
    of the index are the effects before it, in that order; and when the
    sidecar on disk differs from the one the startup found, the index
    directory holds the store that this startup built from the documents of
    the corpus and saved, and the sidecar holds the digest of that corpus. *)
Theorem sidecar_written_after_index (p : Process) :
  exists evs,
    trace (indexing p).2 = trace p ++ evs /\
    (forall before after data,
       evs = before ++ FileWritten HASH_FILE_PATH data :: after ->
       after = [] /\ exists texts, before = [EmbedCall texts; IndexSaved DIRECTORY]) /\
    (disk (indexing p).2 !! HASH_FILE_PATH <> disk p !! HASH_FILE_PATH ->
     exists w data docs store,
       disk p !! CSV_FILE_PATH = Some (File true w data) /\
       parseCSV CSV_FILE_PATH data = Ok docs /\
       store.*2 = docs /\
       IndexSaved DIRECTORY ∈ evs /\
       disk (indexing p).2 !! DIRECTORY = Some (IndexBundle store) /\
       disk (indexing p).2 !! HASH_FILE_PATH =
         Some (File true true (Sha256.sha256_hex data))).
Proof.
  rewrite indexing_unfold.
  destruct (changeDetection p) as [[[h stale]|e] p0] eqn:Hdetect;
    apply changeDetection_cases in Hdetect as [-> Hok].
  2: { exists []. cbn [snd]. rewrite app_nil_r. split; [done|]. split; [|done].
       intros [|? ?] ? ? ?; discriminate. }
  destruct (Hok h stale eq_refl) as (w & data & Hcsv & -> & Hside). clear Hok.
  rewrite then_load_state.
  destruct stale.
  2: { exists []. cbn [snd mret M_ret]. rewrite app_nil_r. split; [done|]. split; [|done].
       intros [|? ?] ? ? ?; discriminate. }
  destruct (rebuild (Sha256.sha256_hex data) p) as [r p2] eqn:Hrebuild. cbn [snd].
  apply rebuild_cases in Hrebuild
    as (_ & [(e & _ & Ht & Hd) | [(e & t & _ & Ht & Hd) | [(e & t & s & _ & Ht & Hd) | Hdone]]]).
  - exists []. rewrite app_nil_r, Hd. split; [done|]. split; [|done].
    intros [|? ?] ? ? ?; discriminate.
  - exists [EmbedCall t]. split; [done|]. split.
    + intros [|? [|? ?]] ? ? ?; discriminate.
    + intros Hchanged. exfalso. apply Hchanged.
      destruct Hd as [-> | ->]; [done|]. now rewrite lookup_insert_ne.
  - exists [EmbedCall t; IndexSaved DIRECTORY]. split; [done|]. split.
    + intros [|? [|? [|? ?]]] ? ? ?; discriminate.
    + intros Hchanged. exfalso. apply Hchanged.
      rewrite Hd. now rewrite lookup_insert_ne.
  - destruct Hdone
      as (w2 & data2 & docs & store & readable & _ & Hcsv2 & Hparse & Hstore & Hold & Ht & Hd).
    assert (data2 = data) as -> by congruence.
    assert (readable = true) as ->.
    { destruct Hold as [[_ ->] | [old Hold]]; [done|].
      destruct Hside as [[Hnone _] | (w' & previous & Hsome & _)]; congruence. }
    eexists. split; [exact Ht|]. split.
    + intros [|? [|? [|? [|? ?]]]] after d Heq; try discriminate.
      injection Heq as <- <-. split; [done|]. eauto.
    + intros _. exists w2, data, docs, store. rewrite Hd.
      rewrite lookup_insert_ne by done. rewrite !lookup_insert_eq.
      repeat split; try done.
      apply list_elem_of_In. cbn. auto.
Qed.

End Indexing.

(** ** The conversational chain (lines 73-178) *)

Section Conversation.
Context {E : External}.

Lemma frame_ret {A} (x : A) : frame (mret x : M A).
Proof. intros p. done. Qed.

Lemma frame_throw {A} (e : Error) : frame (throw e : M A).
Proof. intros p. done. Qed.

Lemma frame_lift {A} (r : Result A) : frame (lift r).
Proof. intros p. done. Qed.

Lemma frame_log (ev : Event) : frame (log ev).
Proof. intros p. done. Qed.

Lemma frame_external {A} (call : World -> A * World) : frame (external call).
Proof. intros p. unfold external. destruct (call (world p)). done. Qed.

Lemma frame_bind {A B} (c : M A) (k : A -> M B) :
  frame c -> (forall x, frame (k x)) -> frame (c ≫= k).
Proof.
  intros Hc Hk p. rewrite bind_unfold.
  destruct (Hc p) as [Hh Hd]. destruct (c p) as [[x|e] p']; cbn [snd] in *.
  - destruct (Hk x p') as [Hh' Hd']. split; congruence.
  - done.
Qed.

Create HintDb frame.
#[local] Hint Resolve frame_ret frame_throw frame_lift frame_log frame_external : frame.

Lemma ChatOpenAI_invoke_frame (model : ChatOpenAI) (prompt : list BaseMessage) :
  frame (ChatOpenAI_invoke model prompt).
Proof. unfold ChatOpenAI_invoke. repeat (apply frame_bind; [|intros]); auto with frame. Qed.

Lemma conversationalRetrievalChain_frame
    (store : list (Vector * Document)) (input : gmap string Value) :
  frame (conversationalRetrievalChain store input).
Proof.
  unfold conversationalRetrievalChain, RunnablePassthrough_assign, rephraseQuestionChain,
    documentRetrievalChain, retriever.
  repeat (apply frame_bind; [|intros]);
    auto using ChatOpenAI_invoke_frame with frame.
Qed.

(** Every way a turn can end: the disk is untouched; a turn that throws
    leaves the heap as it was; a turn that returns has appended the question
    and the answer, in that order, to the one history. *)
Lemma finalRetrievalChain_invoke_cases
    (store : list (Vector * Document)) (messageHistory : nat)
    (input : gmap string Value) (sessionId : string)
    (p p' : Process) (r : Result string) :
  finalRetrievalChain_invoke store messageHistory input sessionId p = (r, p') ->
  disk p' = disk p /\
  match r with
  | Throw _ => heap p' = heap p
  | Ok output =>
      exists question,
        input !! "question" = Some (VString question) /\
        heap p' = <[messageHistory :=
                     messagesOf messageHistory p ++ [HumanMessage question; AIMessage output]]>
                  (heap p)
  end.
Proof.
  unfold finalRetrievalChain_invoke, getMessageHistory. intros H.
  apply bind_inv in H as [([] & p1 & Hsid & H) | (e & Hsid & ->)].
  2: { destruct (String.eqb sessionId ""); cbv [throw mret M_ret] in Hsid; simplify_eq. done. }
  assert (p1 = p) as ->.
  { destruct (String.eqb sessionId ""); cbv [throw mret M_ret] in Hsid; simplify_eq. done. }
  clear Hsid.
  apply bind_inv in H as [(messages & p1 & Hget & H) | (e & Hget & ->)];
    [|discriminate Hget].
  injection Hget as <- <-.
  apply bind_inv in H as [(output & p2 & Hchain & H) | (e & Hchain & ->)].
  2: { destruct (conversationalRetrievalChain_frame store
                   (<["history" := VMessages (messagesOf messageHistory p)]> input) p)
         as [Hh Hd].
       rewrite Hchain in Hh, Hd. done. }
  destruct (conversationalRetrievalChain_frame store
              (<["history" := VMessages (messagesOf messageHistory p)]> input) p)
    as [Hh Hd].
  rewrite Hchain in Hh, Hd. cbn [snd] in Hh, Hd.
  apply bind_inv in H as [(question & p3 & Hq & H) | (e & Hq & ->)].
  2: { injection Hq as _ <-. done. }
  unfold lift in Hq. injection Hq as Hq <-.
  unfold getString in Hq. rewrite lookup_insert_ne in Hq by done.
  apply bind_inv in H as [([] & p4 & Hadd & H) | (e & Hadd & ->)];
    [|discriminate Hadd].
  injection Hadd as <-. injection H as <- <-. cbn [disk heap].
  split; [done|]. exists question. split.
  - destruct (input !! "question") as [[]|]; congruence.
  - unfold messagesOf. now rewrite Hh.
Qed.

Lemma emits_silent {A} (Φ : Event -> Prop) (c : M A) :
  (forall p, trace (c p).2 = trace p) -> emits Φ c.
Proof. intros H p. exists []. rewrite app_nil_r. split; [apply H | constructor]. Qed.

Lemma emits_ret {A} Φ (x : A) : emits Φ (mret x : M A).
Proof. now apply emits_silent. Qed.

Lemma emits_throw {A} Φ (e : Error) : emits Φ (throw e : M A).
Proof. now apply emits_silent. Qed.

Lemma emits_lift {A} Φ (r : Result A) : emits Φ (lift r).
Proof. now apply emits_silent. Qed.

Lemma emits_external {A} Φ (call : World -> A * World) : emits Φ (external call).
Proof. apply emits_silent. intros p. unfold external. now destruct (call (world p)). Qed.

Lemma emits_log (Φ : Event -> Prop) (ev : Event) : Φ ev -> emits Φ (log ev).
Proof. intros H p. exists [ev]. split; [reflexivity | now constructor]. Qed.

Lemma emits_bind {A B} Φ (c : M A) (k : A -> M B) :
  emits Φ c ->
  (forall x p p', c p = (Ok x, p') -> emits Φ (k x)) ->
  emits Φ (c ≫= k).
Proof.
  intros Hc Hk p. rewrite bind_unfold.
  destruct (Hc p) as (evs & Ht & HΦ). destruct (c p) as [[x|e] p'] eqn:Hcp; cbn [snd] in *.
  - destruct (Hk x p p' Hcp p') as (evs' & Ht' & HΦ').
    exists (evs ++ evs'). rewrite Ht', Ht, app_assoc. split; [done|]. now apply Forall_app.
  - eauto.
Qed.

Lemma ChatOpenAI_invoke_emits Φ (model : ChatOpenAI) (prompt : list BaseMessage) :
  Φ (ChatCall model prompt) -> emits Φ (ChatOpenAI_invoke model prompt).
Proof.
  intros H. unfold ChatOpenAI_invoke.
  repeat (apply emits_bind; [|intros]);
    auto using emits_log, emits_external, emits_lift, emits_ret.
Qed.

Lemma formatMessages_rephrase (input : gmap string Value) (question : string)
    (prompt : list BaseMessage) :
  input !! "question" = Some (VString question) ->
  formatMessages rephraseQuestionChainPrompt input = Ok prompt ->
  last prompt = Some (rephraseRequest question).
Proof.
  intros Hq. unfold rephraseQuestionChainPrompt, REPHRASE_QUESTION_SYSTEM_TEMPLATE.
  cbn [formatMessages formatTemplate]. unfold getString. rewrite Hq.
  destruct (input !! "history") as [[| messages |]|]; try discriminate.
  intros [= <-]. cbn [messageOf].
  rewrite last_cons, last_snoc. unfold rephraseRequest. now rewrite append_empty_r.
Qed.

Lemma formatMessages_answer (input : gmap string Value) (question : string)
    (prompt : list BaseMessage) :
  input !! "question" = Some (VString question) ->
  formatMessages answerGenerationChainPrompt input = Ok prompt ->
  last prompt = Some (answerRequest question).
Proof.
  intros Hq. unfold answerGenerationChainPrompt, ANSWER_CHAIN_SYSTEM_TEMPLATE.
  cbn [formatMessages formatTemplate]. unfold getString. rewrite Hq.
  destruct (input !! "context") as [[context | |]|]; try discriminate.
  destruct (input !! "history") as [[| messages |]|]; try discriminate.
  intros [= <-]. cbn [messageOf].
  rewrite last_cons, last_snoc. unfold answerRequest. now rewrite append_empty_r.
Qed.

Lemma RunnablePassthrough_assign_ok (key : string) (runnable : gmap string Value -> M Value)
    (input input' : gmap string Value) (p p' : Process) :
  RunnablePassthrough_assign key runnable input p = (Ok input', p') ->
  exists value, input' = <[key := value]> input.
Proof.
  unfold RunnablePassthrough_assign. intros H.
  apply bind_inv in H as [(value & p1 & _ & H) | (e & _ & He)]; [|discriminate He].
  injection H as <- _. eauto.
Qed.

(** The events of the chain of lines 136-146 on an input whose [question]
    is [question]: each is a [turnEvent] of that question.  In particular
    the store is searched for the question as asked. *)
Lemma conversationalRetrievalChain_emits
    (store : list (Vector * Document)) (input : gmap string Value) (question : string) :
  input !! "question" = Some (VString question) ->
  emits (turnEvent question) (conversationalRetrievalChain store input).
Proof.
  intros Hq. unfold conversationalRetrievalChain.
  apply emits_bind.
  { unfold RunnablePassthrough_assign, rephraseQuestionChain.
    apply emits_bind; [|intros; apply emits_ret].
    apply emits_bind; [|intros; apply emits_ret].
    apply emits_bind; [apply emits_lift|].
    intros prompt p p' Hprompt. injection Hprompt as Hprompt _.
    apply ChatOpenAI_invoke_emits. cbn.
    eapply formatMessages_rephrase; eauto. }
  intros input1 p p' Hin1.
  apply RunnablePassthrough_assign_ok in Hin1 as [v1 ->].
  assert (Hq1 : <["standalone_question" := v1]> input !! "question" = Some (VString question)).
  { now rewrite lookup_insert_ne. }
  apply emits_bind.
  { unfold RunnablePassthrough_assign, documentRetrievalChain, retriever.
    apply emits_bind; [|intros; apply emits_ret].
    apply emits_bind; [|intros; apply emits_ret].
    apply emits_bind; [apply emits_lift|].
    intros q p0 p0' Hget. injection Hget as Hget _.
    unfold getString in Hget. rewrite Hq1 in Hget. injection Hget as <-.
    apply emits_bind; [|intros; apply emits_ret].
    apply emits_bind; [now apply emits_log|].
    intros. apply emits_bind; [apply emits_external|]. intros. apply emits_lift. }
  intros input2 p1 p1' Hin2.
  apply RunnablePassthrough_assign_ok in Hin2 as [v2 ->].
  apply emits_bind; [apply emits_lift|].
  intros prompt p2 p2' Hprompt. injection Hprompt as Hprompt _.
  apply emits_bind; [|intros; apply emits_ret].
  apply ChatOpenAI_invoke_emits. cbn.
  eapply formatMessages_answer; [|exact Hprompt].
  now rewrite lookup_insert_ne.
Qed.

Lemma finalRetrievalChain_invoke_emits
    (store : list (Vector * Document)) (messageHistory : nat)
    (input : gmap string Value) (sessionId question : string) :
  input !! "question" = Some (VString question) ->
  emits (turnEvent question)
        (finalRetrievalChain_invoke store messageHistory input sessionId).
Proof.
  intros Hq. unfold finalRetrievalChain_invoke.
  apply emits_bind.
  { apply emits_silent. intros p. now destruct (String.eqb sessionId ""). }
  intros _ _ _ _.
  apply emits_bind; [now apply emits_silent|].
  intros messages _ _ _.
  apply emits_bind.
  { apply conversationalRetrievalChain_emits. now rewrite lookup_insert_ne. }
  intros output _ _ _.
  apply emits_bind; [apply emits_lift|].
  intros q _ _ _.
  apply emits_bind; [now apply emits_silent|].
  intros. apply emits_ret.
Qed.

Lemma printed_turnEvents (question : string) (evs : list Event) :
  Forall (turnEvent question) evs -> printed evs = [].
Proof.
  induction 1 as [|ev evs Hev _ IH]; [reflexivity|].
  unfold printed in *. cbn [omap list_omap]. rewrite IH.
  destruct ev; cbn in Hev |- *; done.
Qed.

(** *** The loop *)

Section Loop.
Variable loadedVectorStore : list (Vector * Document).
Variable messageHistory : nat.

Local Abbreviation prompt := "Ask a question: ".
Local Abbreviation response a := ("AI Response: " +:+ a +:+ nl).
Local Abbreviation invoke q :=
  (finalRetrievalChain_invoke loadedVectorStore messageHistory {[ "question" := VString q ]} "test").

Lemma messagesOf_log (ev : Event) (p : Process) :
  messagesOf messageHistory (log ev p).2 = messagesOf messageHistory p.
Proof. reflexivity. Qed.

Lemma askQuestion_nil (p : Process) :
  askQuestion loadedVectorStore messageHistory [] p = (Ok tt, (log (Stdout prompt) p).2).
Proof. reflexivity. Qed.

Lemma askQuestion_cons (q : string) (rest : list string) (p : Process) :
  askQuestion loadedVectorStore messageHistory (q :: rest) p =
  match invoke q (log (Stdout prompt) p).2 with
  | (Ok a, pa) =>
      askQuestion loadedVectorStore messageHistory rest (log (Stdout (response a)) pa).2
  | (Throw e, p') => (Throw e, p')
  end.
Proof.
  cbn [askQuestion]. cbv [mbind M_bind log fst snd].
  destruct (finalRetrievalChain_invoke _ _ _ _ _) as [[a|e] pa]; reflexivity.
Qed.

(** One turn: what it does to the history and what it prints. *)
Lemma invoke_turn (q : string) (p p' : Process) (r : Result string) :
  invoke q p = (r, p') ->
  (exists evs, trace p' = trace p ++ evs /\ printed evs = []) /\
  match r with
  | Throw _ => heap p' = heap p
  | Ok a =>
      messagesOf messageHistory p' =
      messagesOf messageHistory p ++ [HumanMessage q; AIMessage a]
  end.
Proof.
  intros H. split.
  - destruct (finalRetrievalChain_invoke_emits loadedVectorStore messageHistory
                {[ "question" := VString q ]} "test" q (lookup_singleton_eq _ _) p)
      as (evs & Ht & Hevs).
    rewrite H in Ht. exists evs. split; [exact Ht|].
    eapply printed_turnEvents, Hevs.
  - apply finalRetrievalChain_invoke_cases in H as [_ H].
    destruct r as [a|e]; [|exact H].
    destruct H as (q' & Hq' & Hheap).
    rewrite lookup_singleton_eq in Hq'. injection Hq' as <-.
    unfold messagesOf at 1. rewrite Hheap, lookup_insert_eq. reflexivity.
Qed.

Lemma transcript_cons (q a : string) (questions answers : list string) :
  transcript (q :: questions) (a :: answers) =
  [HumanMessage q; AIMessage a] ++ transcript questions answers.
Proof. reflexivity. Qed.

Lemma transcript_length (questions answers : list string) :
  length answers = length questions ->
  length (transcript questions answers) = 2 * length questions.
Proof.
  revert answers. induction questions as [|q questions IH]; intros [|a answers] Hlen;
    try discriminate; [reflexivity|].
  rewrite transcript_cons, length_app, IH by (cbn in Hlen; lia). cbn. lia.
Qed.

(** Any run of the loop: the history grows by the transcript of the turns
    that completed, and the console shows the prompt, then for each
    completed turn its answer and the next prompt. *)
Lemma askQuestion_run (lines : list string) (p p' : Process) (r : Result unit) :
  askQuestion loadedVectorStore messageHistory lines p = (r, p') ->
  exists answers evs,
    length answers <= length lines /\
    (r = Ok tt -> length answers = length lines) /\
    messagesOf messageHistory p' =
      messagesOf messageHistory p ++ transcript lines answers /\
    trace p' = trace p ++ evs /\
    printed evs = prompt :: concat (map (fun a => [response a; prompt]) answers).
Proof.
  revert p. induction lines as [|q rest IH]; intros p H.
  - rewrite askQuestion_nil in H. injection H as <- <-.
    exists [], [Stdout prompt]. cbn. rewrite app_nil_r. done.
  - rewrite askQuestion_cons in H.
    destruct (invoke q (log (Stdout prompt) p).2) as [[a|e] pa] eqn:Hturn.
    + apply invoke_turn in Hturn as [(evs1 & Ht1 & Hp1) Hhist].
      apply IH in H as (answers & evs2 & Hle & Hok & Hhist2 & Ht2 & Hp2).
      exists (a :: answers), ([Stdout prompt] ++ evs1 ++ [Stdout (response a)] ++ evs2).
      cbn [length]. split; [lia|]. split; [intros Hr; rewrite (Hok Hr); reflexivity|].
      split.
      * rewrite Hhist2, messagesOf_log, Hhist, messagesOf_log, transcript_cons.
        now rewrite <- !app_assoc.
      * split.
        -- rewrite Ht2. cbn [log snd trace]. rewrite Ht1. cbn [log snd trace].
           now rewrite <- !app_assoc.
        -- unfold printed in *. rewrite !omap_app, Hp1, Hp2. reflexivity.
    + injection H as <- <-.
      apply invoke_turn in Hturn as [(evs1 & Ht1 & Hp1) Hheap].
      exists [], ([Stdout prompt] ++ evs1).
      cbn [length]. split; [lia|]. split; [discriminate|]. split.
      * unfold messagesOf. rewrite Hheap. cbn. now rewrite app_nil_r.
      * split.
        -- rewrite Ht1. cbn [log snd trace]. now rewrite <- !app_assoc.
        -- unfold printed in *. rewrite omap_app, Hp1. reflexivity.
Qed.

(** When the turns on [qs] complete and the run on [qs] followed by [q]
    throws, it is the turn on [q] that threw, and it left the history as the
    turns on [qs] made it. *)
Lemma askQuestion_last_turn_throws (qs : list string) (q : string)
    (p p1 p' : Process) (e : Error) :
  askQuestion loadedVectorStore messageHistory qs p = (Ok tt, p1) ->
  askQuestion loadedVectorStore messageHistory (qs ++ [q]) p = (Throw e, p') ->
  messagesOf messageHistory p' = messagesOf messageHistory p1.
Proof.
  revert p. induction qs as [|q0 qs IH]; intros p Hok Hthrow.
  - rewrite askQuestion_nil in Hok. injection Hok as <-.
    cbn [app] in Hthrow. rewrite askQuestion_cons in Hthrow.
    destruct (invoke q (log (Stdout prompt) p).2) as [[a|e'] pa] eqn:Hturn.
    + rewrite askQuestion_nil in Hthrow. discriminate Hthrow.
    + injection Hthrow as <- <-.
      apply invoke_turn in Hturn as [_ Hheap].
      unfold messagesOf. now rewrite Hheap.
  - cbn [app] in Hthrow. rewrite askQuestion_cons in Hok, Hthrow.
    destruct (invoke q0 (log (Stdout prompt) p).2) as [[a|e'] pa] eqn:Hturn;
      [|discriminate Hok].
    eapply IH; eassumption.
Qed.

Lemma transcript_lookup (questions answers : list string) (i : nat) (q a : string) :
  questions !! i = Some q ->
  answers !! i = Some a ->
  transcript questions answers !! (2 * i) = Some (HumanMessage q) /\
  transcript questions answers !! (2 * i + 1) = Some (AIMessage a).
Proof.
  revert answers i. induction questions as [|q0 questions IH];
    intros [|a0 answers] i Hq Ha; try discriminate.
  destruct i as [|i].
  - injection Hq as <-. injection Ha as <-. done.
  - rewrite transcript_cons.
    replace (2 * S i) with (S (S (2 * i))) by lia.
    replace (S (S (2 * i)) + 1) with (S (S (2 * i + 1))) by lia.
    cbn [app lookup list_lookup]. now apply IH.
Qed.

(** C4. In any run of the loop the history only grows at its end (what was
    there stays, in place).  When all [N] turns complete, the history has
    grown by the transcript of the turns: for each turn in order the
    question as a user message and then the answer printed for it as an
    assistant message, nothing reordered or merged.  On a history that was
    empty this makes exactly [2N] messages, the question of turn [i] at
    index [2i] and its answer at index [2i+1]. *)
Theorem history_after_turns (lines : list string) (p p' : Process) (r : Result unit) :
  askQuestion loadedVectorStore messageHistory lines p = (r, p') ->
  messagesOf messageHistory p `prefix_of` messagesOf messageHistory p' /\
  (r = Ok tt ->
   exists answers,
     length answers = length lines /\
     messagesOf messageHistory p' =
       messagesOf messageHistory p ++ transcript lines answers /\
     (exists evs,
        trace p' = trace p ++ evs /\
        printed evs = prompt :: concat (map (fun a => [response a; prompt]) answers)) /\
     (messagesOf messageHistory p = [] ->
      length (messagesOf messageHistory p') = 2 * length lines /\
      forall i q a,
        lines !! i = Some q ->
        answers !! i = Some a ->
        messagesOf messageHistory p' !! (2 * i) = Some (HumanMessage q) /\
        messagesOf messageHistory p' !! (2 * i + 1) = Some (AIMessage a))).
Proof.
  intros H.
  apply askQuestion_run in H as (answers & evs & _ & Hok & Hhist & Ht & Hp).
  split; [rewrite Hhist; now apply prefix_app_r|].
  intros Hr. specialize (Hok Hr). exists answers.
  split; [exact Hok|]. split; [exact Hhist|]. split; [eauto|].
  intros Hempty. rewrite Hhist, Hempty. cbn [app].
  split; [now apply transcript_length|].
  intros i q a. apply transcript_lookup.
Qed.

(** C3. When the first [k-1] turns complete and turn [k] throws, whatever
    stage threw, the history is what the [k-1] turns left; on a history
    that started empty it has exactly [2(k-1)] messages. *)
Theorem failed_turn_leaves_history (qs : list string) (q : string)
    (p p1 p' : Process) (e : Error) :
  messagesOf messageHistory p = [] ->
  askQuestion loadedVectorStore messageHistory qs p = (Ok tt, p1) ->
  askQuestion loadedVectorStore messageHistory (qs ++ [q]) p = (Throw e, p') ->
  messagesOf messageHistory p' = messagesOf messageHistory p1 /\
  length (messagesOf messageHistory p') = 2 * length qs.
Proof.
  intros Hempty Hok Hthrow.
  pose proof (askQuestion_last_turn_throws qs q p p1 p' e Hok Hthrow) as Hsame.
  split; [exact Hsame|].
  apply askQuestion_run in Hok as (answers & evs & _ & Hlen & Hhist & _).
  rewrite Hsame, Hhist, Hempty. cbn [app].
  apply transcript_length. now apply Hlen.
Qed.

End Loop.

(** C2, as the code has it. There is one history for all session ids:
    [getMessageHistory] ignores the id it is given, so the question and the
    answer of a turn made under one session id are appended to the history
    that every other session id reads. *)
Theorem history_shared_across_sessions
    (store : list (Vector * Document)) (messageHistory : nat)
    (input : gmap string Value) (session other : string)
    (p p' : Process) (output : string) :
  finalRetrievalChain_invoke store messageHistory input session p = (Ok output, p') ->
  exists question,
    input !! "question" = Some (VString question) /\
    messagesOf (getMessageHistory messageHistory other) p' =
      messagesOf (getMessageHistory messageHistory other) p
        ++ [HumanMessage question; AIMessage output].
Proof.
  intros H. apply finalRetrievalChain_invoke_cases in H as [_ (question & Hq & Hheap)].
  exists question. split; [exact Hq|].
  unfold getMessageHistory, messagesOf at 1. now rewrite Hheap, lookup_insert_eq.
Qed.

(** What a turn sends out: the store is searched for the question as the
    user asked it, and the prompt of the answering model ends with that
    same question.  Nothing that is sent depends on the rephrased question. *)
Theorem turn_searches_for_original_question
    (store : list (Vector * Document)) (messageHistory : nat)
    (input : gmap string Value) (sessionId question : string) (p : Process) :
  input !! "question" = Some (VString question) ->
  exists evs,
    trace (finalRetrievalChain_invoke store messageHistory input sessionId p).2
      = trace p ++ evs /\
    (forall query, RetrieveCall query ∈ evs -> query = question) /\
    (forall model prompt,
       ChatCall model prompt ∈ evs ->
       temperature model = None ->
       last prompt = Some (answerRequest question)).
Proof.
  intros Hq.
  destruct (finalRetrievalChain_invoke_emits store messageHistory input sessionId
              question Hq p) as (evs & Ht & Hevs).
  exists evs. split; [exact Ht|].
  rewrite Forall_forall in Hevs. split.
  - intros query Hin. exact (Hevs _ Hin).
  - intros model prompt' Hin Htemp. specialize (Hevs _ Hin). cbn in Hevs.
    now rewrite Htemp in Hevs.
Qed.


End Conversation.

(** ** Runs on the scripted world *)

Section Runs.
Import Demo.

Example sha256_hex_abc :
  Sha256.sha256_hex "abc" = "ba7816bf8f01cfea414140de5dae2223b00361a396177a9cb410ff61f20015ad".
Proof. vm_compute. reflexivity. Qed.

Example sha256_hex_empty :
  Sha256.sha256_hex "" = "e3b0c44298fc1c149afbf4c8996fb92427ae41e4649b934ca495991b7852b855".
Proof. vm_compute. reflexivity. Qed.

Example sha256_hex_two_blocks :
  Sha256.sha256_hex "abcdbcdecdefdefgefghfghighijhijkijkljklmklmnlmnomnopnopq"
  = "248d6a61d20638b8e5c026930c3e6039a33ce45964ff2167f6ecedd419db06c1".
Proof. vm_compute. reflexivity. Qed.

(** A first start embeds, saves the index, then writes the sidecar. *)
Example first_start_rebuilds :
  (indexing (firstRun 0)).1 = Ok indexed /\
  trace (secondRun 0) =
    [ EmbedCall (map pageContent (map snd indexed));
      IndexSaved DIRECTORY;
      FileWritten HASH_FILE_PATH
        "8df063ac941d4aae3e8f1574358f86212398b4b3a735b6c1c5332f1f2bfb1273" ].
Proof. split; vm_compute; reflexivity. Qed.

Lemma changeDetection_compares_fingerprints_witness :
  disk (firstRun 0) !! CSV_FILE_PATH = Some (File true true corpus) /\
  disk (firstRun 0) !! HASH_FILE_PATH = None /\
  changeDetection (firstRun 0) = (Ok (Sha256.sha256_hex corpus, true), firstRun 0) /\
  disk (secondRun 0) !! CSV_FILE_PATH = Some (File true true corpus) /\
  disk (secondRun 0) !! HASH_FILE_PATH = Some (File true true (Sha256.sha256_hex corpus)) /\
  changeDetection (secondRun 0) =
    (Ok (Sha256.sha256_hex corpus,
         bool_decide (Sha256.sha256_hex corpus <> Sha256.sha256_hex corpus)),
     secondRun 0).
Proof.
  assert (H1 : disk (firstRun 0) !! CSV_FILE_PATH = Some (File true true corpus))
    by (vm_compute; reflexivity).
  assert (H2 : disk (firstRun 0) !! HASH_FILE_PATH = None) by (vm_compute; reflexivity).
  assert (H3 : disk (secondRun 0) !! CSV_FILE_PATH = Some (File true true corpus))
    by (vm_compute; reflexivity).
  assert (H4 : disk (secondRun 0) !! HASH_FILE_PATH
               = Some (File true true (Sha256.sha256_hex corpus)))
    by (vm_compute; reflexivity).
  refine (conj H1 (conj H2 (conj _ (conj H3 (conj H4 _))))).
  - exact (proj1 (changeDetection_compares_fingerprints (firstRun 0) true corpus H1) H2).
  - exact (proj2 (changeDetection_compares_fingerprints (secondRun 0) true corpus H3)
             true _ H4).
Defined.

Lemma empty_sidecar_triggers_rebuild_witness :
  disk emptySidecar !! CSV_FILE_PATH = Some (File true true corpus) /\
  disk emptySidecar !! HASH_FILE_PATH = Some (File true true "") /\
  changeDetection emptySidecar = (Ok (Sha256.sha256_hex corpus, true), emptySidecar) /\
  indexing emptySidecar
    = (rebuild (Sha256.sha256_hex corpus) ;; HNSWLib_load DIRECTORY) emptySidecar /\
  shouldReindex (Sha256.sha256_hex corpus) (Some "")
    = shouldReindex (Sha256.sha256_hex corpus) None.
Proof.
  assert (H1 : disk emptySidecar !! CSV_FILE_PATH = Some (File true true corpus))
    by (vm_compute; reflexivity).
  assert (H2 : disk emptySidecar !! HASH_FILE_PATH = Some (File true true ""))
    by (vm_compute; reflexivity).
  exact (conj H1 (conj H2 (empty_sidecar_triggers_rebuild emptySidecar true true corpus H1 H2))).
Defined.

(** The empty sidecar is rebuilt over: the run embeds, saves and records
    the digest. *)
Example empty_sidecar_run :
  (indexing emptySidecar).1 = Ok indexed /\
  disk (indexing emptySidecar).2 !! HASH_FILE_PATH
    = Some (File true true "8df063ac941d4aae3e8f1574358f86212398b4b3a735b6c1c5332f1f2bfb1273").
Proof. split; vm_compute; reflexivity. Qed.

(** C8 as stated fails: with the sidecar present and unreadable, change
    detection does not answer true; it throws, the startup throws with it,
    and the process is left untouched, so nothing was rebuilt. *)
Lemma unreadable_sidecar_counterexample :
  disk lockedSidecar !! CSV_FILE_PATH = Some (File true true corpus) /\
  disk lockedSidecar !! HASH_FILE_PATH = Some (File false true "0f") /\
  ~ (exists h p', changeDetection lockedSidecar = (Ok (h, true), p')) /\
  indexing lockedSidecar = (Throw (EACCES HASH_FILE_PATH), lockedSidecar).
Proof.
  assert (Hdetect : changeDetection lockedSidecar
                    = (Throw (EACCES HASH_FILE_PATH), lockedSidecar))
    by (vm_compute; reflexivity).
  split; [vm_compute; reflexivity|]. split; [vm_compute; reflexivity|]. split.
  - intros (h & p' & H). rewrite Hdetect in H. discriminate H.
  - vm_compute. reflexivity.
Qed.

Lemma unreadable_sidecar_fails_startup_witness :
  disk lockedSidecar !! CSV_FILE_PATH = Some (File true true corpus) /\
  disk lockedSidecar !! HASH_FILE_PATH = Some (File false true "0f") /\
  changeDetection lockedSidecar = (Throw (EACCES HASH_FILE_PATH), lockedSidecar) /\
  indexing lockedSidecar = (Throw (EACCES HASH_FILE_PATH), lockedSidecar).
Proof.
  assert (H1 : disk lockedSidecar !! CSV_FILE_PATH = Some (File true true corpus))
    by (vm_compute; reflexivity).
  assert (H2 : disk lockedSidecar !! HASH_FILE_PATH = Some (File false true "0f"))
    by (vm_compute; reflexivity).
  exact (conj H1 (conj H2
           (unreadable_sidecar_fails_startup lockedSidecar true true corpus "0f" H1 H2))).
Defined.

Lemma indexing_idempotent_witness :
  indexing (firstRun 0) = (Ok indexed, secondRun 0) /\
  disk (secondRun 0) = disk (secondRun 0) /\
  indexing (secondRun 0) = (Ok indexed, secondRun 0) /\
  trace (indexing (secondRun 0)).2 = trace (secondRun 0) /\
  disk (indexing (secondRun 0)).2 = disk (secondRun 0).
Proof.
  assert (H1 : indexing (firstRun 0) = (Ok indexed, secondRun 0))
    by (vm_compute; reflexivity).
  exact (conj H1 (conj eq_refl
           (indexing_idempotent (firstRun 0) (secondRun 0) (secondRun 0) indexed H1 eq_refl))).
Defined.

Lemma first_start_builds_once_witness :
  disk (firstRun 0) !! CSV_FILE_PATH = Some (File true true corpus) /\
  disk (firstRun 0) !! HASH_FILE_PATH = None /\
  indexing (firstRun 0) = (Ok indexed, secondRun 0) /\
  exists docs,
    parseCSV CSV_FILE_PATH corpus = Ok docs /\
    indexed.*2 = docs /\
    trace (secondRun 0) =
      trace (firstRun 0) ++ [EmbedCall (map pageContent docs); IndexSaved DIRECTORY;
                             FileWritten HASH_FILE_PATH (Sha256.sha256_hex corpus)] /\
    disk (secondRun 0) !! HASH_FILE_PATH = Some (File true true (Sha256.sha256_hex corpus)).
Proof.
  assert (H1 : disk (firstRun 0) !! CSV_FILE_PATH = Some (File true true corpus))
    by (vm_compute; reflexivity).
  assert (H2 : disk (firstRun 0) !! HASH_FILE_PATH = None) by (vm_compute; reflexivity).
  assert (H3 : indexing (firstRun 0) = (Ok indexed, secondRun 0))
    by (vm_compute; reflexivity).
  exact (conj H1 (conj H2 (conj H3
           (first_start_builds_once (firstRun 0) (secondRun 0) true corpus indexed H1 H2 H3)))).
Defined.

(** C1 fails on the code. In a two-turn conversation the rephrasing model
    answers the follow-up with a standalone question that differs from it,
    and the store is still searched for the questions as the user typed
    them: line 81 reads [input.question], and nothing reads
    [input.standalone_question]. *)
Theorem rephrased_question_not_used_for_retrieval :
  (rephraseQuestionChain
     (<["history" := VMessages (messagesOf 0 (ask firstQuestion "test" (fresh 4)).2)]>
        {[ "question" := VString followUp ]})
     (ask firstQuestion "test" (fresh 4)).2).1 = Ok (AIMessage standalone) /\
  standalone <> followUp /\
  (ask followUp "test" (ask firstQuestion "test" (fresh 4)).2).1 = Ok answer /\
  searched (trace (ask followUp "test" (ask firstQuestion "test" (fresh 4)).2).2)
    = [firstQuestion; followUp].
Proof.
  split; [vm_compute; reflexivity|]. split; [discriminate|].
  split; vm_compute; reflexivity.
Qed.

(** C2 as stated fails: a turn under session id [alice] is visible in the
    history of session id [bob]. *)
Lemma history_not_partitioned_counterexample :
  "alice" <> "bob" /\
  messagesOf (getMessageHistory 0 "bob") (fresh 2) = [] /\
  messagesOf (getMessageHistory 0 "bob") (ask firstQuestion "alice" (fresh 2)).2
    = [HumanMessage firstQuestion; AIMessage answer] /\
  messagesOf (getMessageHistory 0 "bob") (ask firstQuestion "alice" (fresh 2)).2
    <> messagesOf (getMessageHistory 0 "bob") (fresh 2).
Proof.
  split; [discriminate|]. split; [vm_compute; reflexivity|].
  split; [vm_compute; reflexivity|]. vm_compute. discriminate.
Qed.

Lemma history_shared_across_sessions_witness :
  ask firstQuestion "alice" (fresh 2) = (Ok answer, (ask firstQuestion "alice" (fresh 2)).2) /\
  exists question,
    ({[ "question" := VString firstQuestion ]} : gmap string Value) !! "question"
      = Some (VString question) /\
    messagesOf (getMessageHistory 0 "bob") (ask firstQuestion "alice" (fresh 2)).2 =
      messagesOf (getMessageHistory 0 "bob") (fresh 2)
        ++ [HumanMessage question; AIMessage answer].
Proof.
  assert (H1 : ask firstQuestion "alice" (fresh 2)
               = (Ok answer, (ask firstQuestion "alice" (fresh 2)).2))
    by (vm_compute; reflexivity).
  exact (conj H1
           (history_shared_across_sessions indexed 0 {[ "question" := VString firstQuestion ]}
              "alice" "bob" (fresh 2) _ answer H1)).
Defined.

Lemma history_after_turns_witness :
  askQuestion indexed 0 [firstQuestion; followUp] (fresh 4)
    = (Ok tt, (askQuestion indexed 0 [firstQuestion; followUp] (fresh 4)).2) /\
  messagesOf 0 (fresh 4)
    `prefix_of` messagesOf 0 (askQuestion indexed 0 [firstQuestion; followUp] (fresh 4)).2 /\
  (Ok tt = Ok tt ->
   exists answers,
     length answers = length [firstQuestion; followUp] /\
     messagesOf 0 (askQuestion indexed 0 [firstQuestion; followUp] (fresh 4)).2 =
       messagesOf 0 (fresh 4) ++ transcript [firstQuestion; followUp] answers /\
     (exists evs,
        trace (askQuestion indexed 0 [firstQuestion; followUp] (fresh 4)).2
          = trace (fresh 4) ++ evs /\
        printed evs =
          "Ask a question: "
            :: concat (map (fun a => ["AI Response: " +:+ a +:+ nl; "Ask a question: "])
                           answers)) /\
     (messagesOf 0 (fresh 4) = [] ->
      length (messagesOf 0 (askQuestion indexed 0 [firstQuestion; followUp] (fresh 4)).2)
        = 2 * length [firstQuestion; followUp] /\
      forall i q a,
        [firstQuestion; followUp] !! i = Some q ->
        answers !! i = Some a ->
        messagesOf 0 (askQuestion indexed 0 [firstQuestion; followUp] (fresh 4)).2 !! (2 * i)
          = Some (HumanMessage q) /\
        messagesOf 0 (askQuestion indexed 0 [firstQuestion; followUp] (fresh 4)).2
          !! (2 * i + 1) = Some (AIMessage a))).
Proof.
  assert (H1 : askQuestion indexed 0 [firstQuestion; followUp] (fresh 4)
               = (Ok tt, (askQuestion indexed 0 [firstQuestion; followUp] (fresh 4)).2))
    by (vm_compute; reflexivity).
  exact (conj H1
           (history_after_turns indexed 0 [firstQuestion; followUp] (fresh 4) _ (Ok tt) H1)).
Defined.

(** Two completed turns, written out. *)
Example two_turns_history :
  messagesOf 0 (askQuestion indexed 0 [firstQuestion; followUp] (fresh 4)).2
    = [HumanMessage firstQuestion; AIMessage answer; HumanMessage followUp; AIMessage answer].
Proof. vm_compute. reflexivity. Qed.

(** With a budget of three completions the second turn fails at its
    generation step. *)
Lemma failed_turn_leaves_history_witness :
  messagesOf 0 (fresh 3) = [] /\
  askQuestion indexed 0 [firstQuestion] (fresh 3)
    = (Ok tt, (askQuestion indexed 0 [firstQuestion] (fresh 3)).2) /\
  askQuestion indexed 0 ([firstQuestion] ++ [followUp]) (fresh 3)
    = (Throw ModelCallError, (askQuestion indexed 0 ([firstQuestion] ++ [followUp]) (fresh 3)).2) /\
  messagesOf 0 (askQuestion indexed 0 ([firstQuestion] ++ [followUp]) (fresh 3)).2
    = messagesOf 0 (askQuestion indexed 0 [firstQuestion] (fresh 3)).2 /\
  length (messagesOf 0 (askQuestion indexed 0 ([firstQuestion] ++ [followUp]) (fresh 3)).2)
    = 2 * length [firstQuestion].
Proof.
  assert (H1 : askQuestion indexed 0 [firstQuestion] (fresh 3)
               = (Ok tt, (askQuestion indexed 0 [firstQuestion] (fresh 3)).2))
    by (vm_compute; reflexivity).
  assert (H2 : askQuestion indexed 0 ([firstQuestion] ++ [followUp]) (fresh 3)
               = (Throw ModelCallError,
                  (askQuestion indexed 0 ([firstQuestion] ++ [followUp]) (fresh 3)).2))
    by (vm_compute; reflexivity).
  exact (conj eq_refl (conj H1 (conj H2
           (failed_turn_leaves_history indexed 0 [firstQuestion] followUp
              (fresh 3) _ _ ModelCallError eq_refl H1 H2)))).
Defined.

Lemma turn_searches_for_original_question_witness :
  ({[ "question" := VString followUp ]} : gmap string Value) !! "question"
    = Some (VString followUp) /\
  exists evs,
    trace (ask followUp "test" (fresh 2)).2 = trace (fresh 2) ++ evs /\
    (forall query, RetrieveCall query ∈ evs -> query = followUp) /\
    (forall model prompt,
       ChatCall model prompt ∈ evs ->
       temperature model = None ->
       last prompt = Some (answerRequest followUp)).
Proof.
  exact (conj eq_refl
           (turn_searches_for_original_question indexed 0
              {[ "question" := VString followUp ]} "test" followUp (fresh 2) eq_refl)).
Defined.

(** The generation step of the second turn is where the three-completion
    run stops: the rephrasing call and the search of that turn were made. *)
Example failed_turn_trace :
  searched (trace (askQuestion indexed 0 [firstQuestion; followUp] (fresh 3)).2)
    = [firstQuestion; followUp] /\
  printed (trace (askQuestion indexed 0 [firstQuestion; followUp] (fresh 3)).2)
    = ["Ask a question: "; "AI Response: " +:+ answer +:+ nl; "Ask a question: "].
Proof. split; vm_compute; reflexivity. Qed.

(** With a budget of two completions it is the rephrasing step of the
    second turn that fails; the store is not searched and the history keeps
    the first turn only. *)
Example failed_rephrase_trace :
  (askQuestion indexed 0 [firstQuestion; followUp] (fresh 2)).1 = Throw ModelCallError /\
  searched (trace (askQuestion indexed 0 [firstQuestion; followUp] (fresh 2)).2)
    = [firstQuestion] /\
  messagesOf 0 (askQuestion indexed 0 [firstQuestion; followUp] (fresh 2)).2
    = [HumanMessage firstQuestion; AIMessage answer].
Proof. refine (conj _ (conj _ _)); vm_compute; reflexivity. Qed.

(** The whole script on a first start, two questions typed. *)
Example main_two_questions :
  (main [firstQuestion; followUp] (firstRun 4)).1 = Ok tt /\
  messagesOf 0 (main [firstQuestion; followUp] (firstRun 4)).2
    = [HumanMessage firstQuestion; AIMessage answer; HumanMessage followUp; AIMessage answer] /\
  printed (trace (main [firstQuestion; followUp] (firstRun 4)).2)
    = ["Ask a question: "; "AI Response: " +:+ answer +:+ nl;
       "Ask a question: "; "AI Response: " +:+ answer +:+ nl;
       "Ask a question: "].
Proof. refine (conj _ (conj _ _)); vm_compute; reflexivity. Qed.

End Runs.

(** * Further properties of the startup *)

Section Startup.
Context {E : External}.

Lemma hexDigit_lower (d : Z) : (0 <= d < 16)%Z -> isLowerHex (Sha256.hexDigit d) = true.
Proof.
  intros Hd.
  assert (Hcases : (d = 0 \/ d = 1 \/ d = 2 \/ d = 3 \/ d = 4 \/ d = 5 \/ d = 6 \/ d = 7 \/
                    d = 8 \/ d = 9 \/ d = 10 \/ d = 11 \/ d = 12 \/ d = 13 \/ d = 14 \/
                    d = 15)%Z) by lia.
  repeat (destruct Hcases as [-> | Hcases]; [reflexivity|]). subst d. reflexivity.
Qed.

Lemma hexWord_lower (digits : nat) (x : Z) :
  stringAll isLowerHex (Sha256.hexWord digits x) = true.
Proof.
  induction digits as [|d IH]; [reflexivity|].
  cbn [Sha256.hexWord stringAll]. rewrite IH, andb_true_r.
  apply hexDigit_lower, Z.mod_pos_bound. lia.
Qed.

Lemma stringAll_append (test : ascii -> bool) (a b : string) :
  stringAll test (a +:+ b) = stringAll test a && stringAll test b.
Proof.
  induction a as [|c a IH]; [reflexivity|].
  change (test c && stringAll test (a +:+ b) = test c && stringAll test a && stringAll test b).
  now rewrite IH, andb_assoc.
Qed.

(** [calculateHash] on a readable file returns 64 characters, each one of
    [0-9a-f], and leaves the process as it was; on a path that holds no
    file it throws ENOENT. *)
Theorem calculateHash_hex_digest (filePath : string) (p : Process) :
  (forall w data,
     disk p !! filePath = Some (File true w data) ->
     exists h,
       calculateHash filePath p = (Ok h, p) /\
       String.length h = 64 /\
       stringAll isLowerHex h = true) /\
  (disk p !! filePath = None ->
   calculateHash filePath p = (Throw (ENOENT filePath), p)).
Proof.
  split.
  - intros w data Hfile. exists (Sha256.sha256_hex data). split.
    + unfold calculateHash. rewrite bind_unfold. unfold readFileSync. now rewrite Hfile.
    + split; [apply sha256_hex_length|].
      unfold Sha256.sha256_hex, Sha256.hex.
      now rewrite !stringAll_append, !hexWord_lower.
  - intros Hnone. unfold calculateHash. rewrite bind_unfold.
    unfold readFileSync. now rewrite Hnone.
Qed.

(** The condition of line 50 is false, so that the rebuild is skipped,
    exactly when the stored fingerprint is a non-empty string equal to the
    current one. *)
Theorem shouldReindex_false_iff (currentHash : string) (previousHash : option string) :
  shouldReindex currentHash previousHash = false <->
  previousHash = Some currentHash /\ currentHash <> "".
Proof.
  unfold shouldReindex, strictNotEqual.
  destruct previousHash as [[|c previous]|]; cbn [truthy negb orb].
  - split; [discriminate|]. intros [[= <-] Hne]. now contradiction Hne.
  - destruct (String.eqb_spec currentHash (String c previous)) as [-> | Hne]; cbn [negb].
    + split; [|reflexivity]. intros _. split; [reflexivity | discriminate].
    + split; [discriminate|]. intros [[= Heq] _]. now contradiction Hne.
  - split; [discriminate|]. intros [[=] _].
Qed.

(** What change detection answers, read off the two files. *)
Lemma changeDetection_result (p : Process) :
  (changeDetection p).1 =
  match disk p !! CSV_FILE_PATH with
  | Some (File true _ data) =>
      match disk p !! HASH_FILE_PATH with
      | None => Ok (Sha256.sha256_hex data, true)
      | Some (File true _ previous) =>
          Ok (Sha256.sha256_hex data, shouldReindex (Sha256.sha256_hex data) (Some previous))
      | Some (File false _ _) => Throw (EACCES HASH_FILE_PATH)
      | Some _ => Throw (EISDIR HASH_FILE_PATH)
      end
  | Some (File false _ _) => Throw (EACCES CSV_FILE_PATH)
  | None => Throw (ENOENT CSV_FILE_PATH)
  | Some _ => Throw (EISDIR CSV_FILE_PATH)
  end.
Proof.
  unfold changeDetection, calculateHash, readPreviousHash, existsSync, readFileSync.
  cbv [mbind M_bind mret M_ret].
  destruct (disk p !! CSV_FILE_PATH) as [[[] w data| |]|]; try reflexivity.
  destruct (disk p !! HASH_FILE_PATH) as [[[] w' previous| |]|] eqn:Hp;
    cbv beta iota zeta; rewrite ?Hp; reflexivity.
Qed.

(** It depends on the corpus file and the sidecar only. *)
Lemma changeDetection_ext (p q : Process) :
  disk p !! CSV_FILE_PATH = disk q !! CSV_FILE_PATH ->
  disk p !! HASH_FILE_PATH = disk q !! HASH_FILE_PATH ->
  (changeDetection p).1 = (changeDetection q).1.
Proof.
  intros Hcsv Hside. rewrite !changeDetection_result. now rewrite Hcsv, Hside.
Qed.

(** After a startup that succeeded the disk is consistent: the sidecar
    holds the digest of the corpus as it is on disk, the index directory
    holds the very store that was returned (also when it was just built),
    and change detection would now answer false. *)
Theorem startup_leaves_disk_consistent
    (p p' : Process) (store : list (Vector * Document)) :
  indexing p = (Ok store, p') ->
  exists w w' data,
    disk p' !! CSV_FILE_PATH = Some (File true w data) /\
    disk p' !! HASH_FILE_PATH = Some (File true w' (Sha256.sha256_hex data)) /\
    disk p' !! DIRECTORY = Some (IndexBundle store) /\
    changeDetection p' = (Ok (Sha256.sha256_hex data, false), p').
Proof.
  intros H.
  destruct (indexing_ok_disk p p' store H) as (w & w' & data & Hcsv & Hside & Hdir).
  exists w, w', data. repeat split; try done.
  unfold changeDetection.
  rewrite bind_unfold, (calculateHash_readable p' w data Hcsv).
  rewrite bind_unfold, (readPreviousHash_readable p' w' _ Hside).
  cbn [mret M_ret].
  rewrite (shouldReindex_stored _ _ (sha256_hex_nonempty data)).
  now rewrite bool_decide_eq_false_2 by (intros Hne; now apply Hne).
Qed.

(** Every way a startup can end, as a step of the rebuild or none. *)
Lemma indexing_state (p : Process) :
  (indexing p).2 = p \/
  exists h, (changeDetection p).1 = Ok (h, true) /\ (indexing p).2 = (rebuild h p).2.
Proof.
  rewrite indexing_unfold.
  destruct (changeDetection p) as [[[h stale]|e] p0] eqn:Hdetect;
    pose proof Hdetect as Hcases; apply changeDetection_cases in Hcases as [-> _].
  2: { left. reflexivity. }
  rewrite then_load_state. destruct stale; [|left; reflexivity].
  right. exists h. done.
Qed.

Lemma indexing_other_paths (p : Process) (path : string) :
  path <> HASH_FILE_PATH ->
  path <> DIRECTORY ->
  disk (indexing p).2 !! path = disk p !! path /\
  heap (indexing p).2 = heap p.
Proof.
  intros Hhash Hdir.
  destruct (indexing_state p) as [-> | (h & _ & ->)]; [done|].
  destruct (rebuild h p) as [r p2] eqn:Hrebuild. cbn [snd].
  apply rebuild_cases in Hrebuild
    as (Hheap & [(e & _ & _ & Hd) | [(e & t & _ & _ & Hd) | [(e & t & s & _ & _ & Hd) | Hdone]]]).
  - now rewrite Hd.
  - split; [|done]. destruct Hd as [-> | ->]; [done|]. now rewrite lookup_insert_ne.
  - split; [|done]. rewrite Hd. now rewrite lookup_insert_ne.
  - destruct Hdone as (w & data & docs & store & readable & _ & _ & _ & _ & _ & _ & Hd).
    split; [|done]. rewrite Hd. rewrite lookup_insert_ne by done. now rewrite lookup_insert_ne.
Qed.

(** A startup changes nothing on disk but the sidecar and the index
    directory (the corpus file in particular is never written), and it
    leaves the heap alone, however it ends. *)
Theorem startup_writes_only_sidecar_and_index (p : Process) (path : string) :
  path <> HASH_FILE_PATH ->
  path <> DIRECTORY ->
  disk (indexing p).2 !! path = disk p !! path /\
  heap (indexing p).2 = heap p.
Proof. exact (indexing_other_paths p path). Qed.

(** A startup that fails, at whatever step, has not touched the sidecar;
    so the next startup gets the same answer from change detection and
    rebuilds again if this one was rebuilding. *)
Theorem failed_startup_keeps_sidecar (p p' : Process) (e : Error) :
  indexing p = (Throw e, p') ->
  disk p' !! HASH_FILE_PATH = disk p !! HASH_FILE_PATH /\
  (changeDetection p').1 = (changeDetection p).1.
Proof.
  intros H.
  assert (Hside : disk p' !! HASH_FILE_PATH = disk p !! HASH_FILE_PATH).
  { rewrite indexing_unfold in H.
    destruct (changeDetection p) as [[[h stale]|e0] p0] eqn:Hdetect;
      apply changeDetection_cases in Hdetect as [-> _].
    2: { now injection H as _ <-. }
    apply bind_inv in H as [([] & p2 & Hbranch & Hload) | (e1 & Hbranch & _)].
    - destruct stale.
      + apply rebuild_cases in Hbranch
          as (_ & [(e1 & He & _) | [(e1 & t & He & _) | [(e1 & t & s & He & _) | Hdone]]]);
          try discriminate He.
        destruct Hdone as (w & data & docs & store & readable & _ & _ & _ & _ & _ & _ & Hd).
        exfalso. unfold HNSWLib_load in Hload. rewrite Hd in Hload.
        rewrite lookup_insert_ne in Hload by done.
        rewrite lookup_insert_eq in Hload. discriminate Hload.
      + injection Hbranch as <-. now apply HNSWLib_load_cases in Hload as [-> _].
    - destruct stale; [|discriminate Hbranch].
      apply rebuild_cases in Hbranch
        as (_ & [(e2 & _ & _ & Hd) | [(e2 & t & _ & _ & Hd) | [(e2 & t & s & _ & _ & Hd) | Hdone]]]).
      + now rewrite Hd.
      + destruct Hd as [-> | ->]; [done|]. now rewrite lookup_insert_ne.
      + rewrite Hd. now rewrite lookup_insert_ne.
      + destruct Hdone as (? & ? & ? & ? & ? & Hr & _). discriminate Hr. }
  split; [exact Hside|].
  apply changeDetection_ext; [|exact Hside].
  destruct (indexing_other_paths p CSV_FILE_PATH) as [Hcsv _]; [done..|].
  now rewrite H in Hcsv.
Qed.

(** Without a readable corpus file nothing starts: the startup throws at
    the first read, before any other effect, and the script ends there
    without asking a question. *)
Theorem unreadable_corpus_is_fatal (p : Process) (lines : list string) :
  (forall w data, disk p !! CSV_FILE_PATH <> Some (File true w data)) ->
  exists e, indexing p = (Throw e, p) /\ main lines p = (Throw e, p).
Proof.
  intros Hcsv.
  assert (Hdetect : exists e, changeDetection p = (Throw e, p)).
  { unfold changeDetection, calculateHash, readFileSync. cbv [mbind M_bind mret M_ret].
    destruct (disk p !! CSV_FILE_PATH) as [[[] w data| |]|] eqn:Hfile; eauto.
    now destruct (Hcsv w data). }
  destruct Hdetect as [e Hdetect]. exists e.
  assert (Hindexing : indexing p = (Throw e, p)).
  { now rewrite indexing_unfold, Hdetect. }
  split; [exact Hindexing|].
  unfold main. now rewrite bind_unfold, Hindexing.
Qed.

End Startup.

(** * Further properties of a turn and of the loop *)

Section Turn.
Context {E : External}.

Lemma ChatOpenAI_invoke_cases (model : ChatOpenAI) (prompt : list BaseMessage)
    (p p' : Process) (r : Result BaseMessage) :
  ChatOpenAI_invoke model prompt p = (r, p') ->
  trace p' = trace p ++ [ChatCall model prompt] /\
  forall message, r = Ok message ->
    exists content,
      message = AIMessage content /\
      (chatCompletion model prompt (world p)).1 = Ok content.
Proof.
  unfold ChatOpenAI_invoke, log, external, lift.
  cbv [mbind M_bind mret M_ret]. cbn [world disk heap trace].
  destruct (chatCompletion model prompt (world p)) as [[content|e] w'] eqn:Hcall;
    intros H; simplify_eq; cbn; split; try done.
  intros message [= <-]. eauto.
Qed.

Lemma retriever_cases (store : list (Vector * Document)) (query : string)
    (p p' : Process) (r : Result (list Document)) :
  retriever store query p = (r, p') ->
  trace p' = trace p ++ [RetrieveCall query] /\
  forall documents, r = Ok documents ->
    (similaritySearch store query (world p)).1 = Ok documents.
Proof.
  unfold retriever, log, external, lift.
  cbv [mbind M_bind mret M_ret]. cbn [world disk heap trace].
  destruct (similaritySearch store query (world p)) as [[documents|e] w'] eqn:Hcall;
    intros H; simplify_eq; cbn; split; done.
Qed.

Lemma formatMessages_rephrase_exact (input : gmap string Value) (question : string)
    (history : list BaseMessage) :
  input !! "question" = Some (VString question) ->
  input !! "history" = Some (VMessages history) ->
  formatMessages rephraseQuestionChainPrompt input = Ok (rephrasePrompt history question).
Proof.
  intros Hq Hh. unfold rephraseQuestionChainPrompt, REPHRASE_QUESTION_SYSTEM_TEMPLATE.
  cbn [formatMessages formatTemplate]. unfold getString. rewrite Hq, Hh.
  cbn [messageOf]. unfold rephrasePrompt, rephraseRequest, rendered.
  cbn [formatTemplate REPHRASE_QUESTION_SYSTEM_TEMPLATE app].
  now rewrite (append_empty_r question).
Qed.

Lemma formatMessages_answer_exact (input : gmap string Value) (question context : string)
    (history : list BaseMessage) :
  input !! "question" = Some (VString question) ->
  input !! "context" = Some (VString context) ->
  input !! "history" = Some (VMessages history) ->
  formatMessages answerGenerationChainPrompt input
    = Ok (answerPrompt context history question).
Proof.
  intros Hq Hc Hh. unfold answerGenerationChainPrompt, ANSWER_CHAIN_SYSTEM_TEMPLATE.
  cbn [formatMessages formatTemplate]. unfold getString. rewrite Hq, Hc, Hh.
  cbn [messageOf]. unfold answerPrompt, answerRequest, rendered.
  unfold ANSWER_CHAIN_SYSTEM_TEMPLATE. cbn [formatTemplate]. unfold getString.
  rewrite lookup_singleton_eq. cbn [app].
  now rewrite (append_empty_r question).
Qed.

(** Every way the chain of lines 136-146 can end, stage by stage. *)
Lemma conversationalRetrievalChain_cases
    (store : list (Vector * Document)) (input : gmap string Value)
    (question : string) (history : list BaseMessage)
    (p p' : Process) (r : Result string) :
  input !! "question" = Some (VString question) ->
  input !! "history" = Some (VMessages history) ->
  conversationalRetrievalChain store input p = (r, p') ->
  (exists e, r = Throw e /\
     trace p' = trace p ++ [ChatCall rephraseModel (rephrasePrompt history question)]) \/
  (exists e, r = Throw e /\
     trace p' = trace p ++ [ChatCall rephraseModel (rephrasePrompt history question);
                            RetrieveCall question]) \/
  (exists documents w,
     (similaritySearch store question w).1 = Ok documents /\
     trace p' = trace p ++
       [ChatCall rephraseModel (rephrasePrompt history question);
        RetrieveCall question;
        ChatCall answerModel
          (answerPrompt (convertDocsToString documents) history question)] /\
     ((exists e, r = Throw e) \/
      (exists output w',
         r = Ok output /\
         (chatCompletion answerModel
            (answerPrompt (convertDocsToString documents) history question) w').1
           = Ok output))).
Proof.
  intros Hq Hh H. unfold conversationalRetrievalChain, RunnablePassthrough_assign in H.
  apply bind_inv in H as [(input1 & p1 & Hstage1 & H) | (e & Hstage1 & ->)].
  2: { left. exists e. split; [done|].
       apply bind_inv in Hstage1 as [(v & p1 & _ & Hret) | (e1 & Hstage1 & _)];
         [discriminate Hret|].
       apply bind_inv in Hstage1 as [(m & p1 & _ & Hret) | (e2 & Hstage1 & _)];
         [discriminate Hret|].
       unfold rephraseQuestionChain in Hstage1.
       rewrite (formatMessages_rephrase_exact input question history Hq Hh) in Hstage1.
       rewrite bind_unfold in Hstage1. cbn [lift] in Hstage1.
       now apply ChatOpenAI_invoke_cases in Hstage1 as [Ht _]. }
  apply bind_inv in Hstage1 as [(v1 & p1' & Hstage1 & Hret) | (e1 & _ & Hbad)];
    [|discriminate Hbad].
  injection Hret as <- <-.
  apply bind_inv in Hstage1 as [(m & p1b & Hstage1 & Hret) | (e2 & _ & Hbad)];
    [|discriminate Hbad].
  injection Hret as <- <-.
  unfold rephraseQuestionChain in Hstage1.
  rewrite (formatMessages_rephrase_exact input question history Hq Hh) in Hstage1.
  rewrite bind_unfold in Hstage1. cbn [lift] in Hstage1.
  apply ChatOpenAI_invoke_cases in Hstage1 as [Ht1 _].
  set (input1 := <["standalone_question" := VMessage m]> input) in *.
  assert (Hq1 : input1 !! "question" = Some (VString question))
    by (unfold input1; now rewrite lookup_insert_ne).
  assert (Hh1 : input1 !! "history" = Some (VMessages history))
    by (unfold input1; now rewrite lookup_insert_ne).
  assert (Hretrieve : forall ps rr pp,
            documentRetrievalChain store input1 ps = (rr, pp) ->
            trace pp = trace ps ++ [RetrieveCall question] /\
            forall context, rr = Ok context ->
              exists documents, context = convertDocsToString documents /\
                (similaritySearch store question (world ps)).1 = Ok documents).
  { intros ps rr pp Hd. unfold documentRetrievalChain, getString in Hd. rewrite Hq1 in Hd.
    rewrite bind_unfold in Hd. cbn [lift] in Hd.
    apply bind_inv in Hd as [(documents & pd & Hret & Hd) | (e & Hret & ->)].
    - apply retriever_cases in Hret as [Ht Hdocs]. injection Hd as <- <-.
      split; [done|]. intros context [= <-]. eauto.
    - apply retriever_cases in Hret as [Ht _]. split; [done | discriminate]. }
  apply bind_inv in H as [(input2 & p2 & Hstage2 & H) | (e & Hstage2 & ->)].
  2: { right; left. exists e. split; [done|].
       apply bind_inv in Hstage2 as [(v & pa & _ & Hret) | (e1 & Hstage2 & _)];
         [discriminate Hret|].
       apply bind_inv in Hstage2 as [(c & pa & _ & Hret) | (e2 & Hstage2 & _)];
         [discriminate Hret|].
       apply Hretrieve in Hstage2 as [Ht2 _]. rewrite Ht2, Ht1, <- app_assoc. done. }
  apply bind_inv in Hstage2 as [(v2 & p2a & Hstage2 & Hret) | (e1 & _ & Hbad)];
    [|discriminate Hbad].
  injection Hret as <- <-.
  apply bind_inv in Hstage2 as [(context & p2b & Hstage2 & Hret) | (e2 & _ & Hbad)];
    [|discriminate Hbad].
  injection Hret as <- <-.
  pose proof Hstage2 as Hstart.
  apply Hretrieve in Hstage2 as [Ht2 Hcontext].
  destruct (Hcontext context eq_refl) as (documents & -> & Hsearch). clear Hcontext Hretrieve.
  rewrite (formatMessages_answer_exact _ question (convertDocsToString documents) history)
    in H.
  2: { rewrite lookup_insert_ne by done. exact Hq1. }
  2: { now rewrite lookup_insert_eq. }
  2: { rewrite lookup_insert_ne by done. exact Hh1. }
  rewrite bind_unfold in H. cbn [lift] in H.
  right; right. eexists documents, _. split; [exact Hsearch|].
  apply bind_inv in H as [(message & p3 & Hstage3 & Hret) | (e & Hstage3 & ->)].
  - apply ChatOpenAI_invoke_cases in Hstage3 as [Ht3 Hmsg].
    destruct (Hmsg message eq_refl) as (content & -> & Hcall).
    injection Hret as <- <-. split.
    + rewrite Ht3, Ht2, Ht1, <- !app_assoc. done.
    + right. eexists content, _. split; [done | exact Hcall].
  - apply ChatOpenAI_invoke_cases in Hstage3 as [Ht3 _]. split.
    + rewrite Ht3, Ht2, Ht1, <- !app_assoc. done.
    + left. eauto.
Qed.

(** The chain is its three calls. *)
Lemma conversationalRetrievalChain_outcome
    (store : list (Vector * Document)) (input : gmap string Value)
    (question : string) (history : list BaseMessage) (p : Process) :
  input !! "question" = Some (VString question) ->
  input !! "history" = Some (VMessages history) ->
  conversationalRetrievalChain store input p = chainOutcome store question history p.
Proof.
  intros Hq Hh.
  unfold conversationalRetrievalChain, RunnablePassthrough_assign, rephraseQuestionChain.
  rewrite (formatMessages_rephrase_exact input question history Hq Hh).
  unfold chainOutcome, rephraseModel, answerModel, ChatOpenAI_invoke, log, external, lift.
  cbv [mbind M_bind mret M_ret]. cbn [world disk heap trace].
  destruct (chatCompletion _ (rephrasePrompt history question) (world p))
    as [[content|e] w1]; [|reflexivity].
  unfold documentRetrievalChain, retriever, getString, log, external, lift.
  cbv [mbind M_bind mret M_ret]. cbn [world disk heap trace].
  rewrite lookup_insert_ne by done. rewrite Hq.
  cbn [world disk heap trace].
  destruct (similaritySearch store question w1) as [[documents|e] w2]; [|reflexivity].
  rewrite (formatMessages_answer_exact _ question (convertDocsToString documents) history).
  2: { rewrite lookup_insert_ne by done. now rewrite lookup_insert_ne. }
  2: { now rewrite lookup_insert_eq. }
  2: { rewrite lookup_insert_ne by done. now rewrite lookup_insert_ne. }
  unfold answerModel. cbn [world disk heap trace].
  destruct (chatCompletion _ _ w2) as [[output|e] w3]; cbn [StringOutputParser];
    now rewrite <- !app_assoc.
Qed.

(** A turn under a session id is [turnOutcome]. *)
Lemma finalRetrievalChain_invoke_outcome
    (store : list (Vector * Document)) (messageHistory : nat)
    (input : gmap string Value) (sessionId question : string) (p : Process) :
  sessionId <> "" ->
  input !! "question" = Some (VString question) ->
  finalRetrievalChain_invoke store messageHistory input sessionId p
    = turnOutcome store messageHistory question p.
Proof.
  intros Hsid Hq. unfold finalRetrievalChain_invoke, getMessageHistory, turnOutcome.
  apply String.eqb_neq in Hsid. rewrite Hsid.
  rewrite bind_unfold. cbn [mret M_ret].
  rewrite bind_unfold. cbn [getMessages].
  rewrite bind_unfold.
  rewrite (conversationalRetrievalChain_outcome store _ question
             (messagesOf messageHistory p)).
  2: { now rewrite lookup_insert_ne. }
  2: { now rewrite lookup_insert_eq. }
  destruct (chainOutcome store question (messagesOf messageHistory p) p)
    as [[output|e] pc] eqn:Hchain; [|reflexivity].
  unfold getString. rewrite lookup_insert_ne by done. rewrite Hq.
  rewrite bind_unfold. cbn [lift].
  rewrite bind_unfold. cbn [addMessages mret M_ret].
  assert (Hheap : heap pc = heap p).
  { unfold chainOutcome in Hchain.
    destruct (chatCompletion _ _ (world p)) as [[c|e1] w1]; [|discriminate Hchain].
    destruct (similaritySearch store question w1) as [[documents|e2] w2];
      [|discriminate Hchain].
    destruct (chatCompletion _ _ w2) as [[o|e3] w3]; injection Hchain as _ <-; done. }
  unfold messagesOf at 1. now rewrite Hheap.
Qed.

(** A turn with a session id is the chain run on the input with the
    history put under [history]; what follows the chain adds no event. *)
Lemma finalRetrievalChain_invoke_chain
    (store : list (Vector * Document)) (messageHistory : nat)
    (input : gmap string Value) (sessionId question : string)
    (p p' : Process) (r : Result string) :
  sessionId <> "" ->
  input !! "question" = Some (VString question) ->
  finalRetrievalChain_invoke store messageHistory input sessionId p = (r, p') ->
  exists pc,
    conversationalRetrievalChain store
      (<["history" := VMessages (messagesOf messageHistory p)]> input) p = (r, pc) /\
    trace p' = trace pc.
Proof.
  intros Hsid Hq H. unfold finalRetrievalChain_invoke, getMessageHistory in H.
  apply String.eqb_neq in Hsid. rewrite Hsid in H.
  rewrite bind_unfold in H. cbn [mret M_ret] in H.
  rewrite bind_unfold in H. cbn [getMessages] in H.
  apply bind_inv in H as [(output & pc & Hchain & H) | (e & Hchain & ->)]; [|eauto].
  unfold getString in H. rewrite lookup_insert_ne in H by done. rewrite Hq in H.
  rewrite bind_unfold in H. cbn [lift] in H.
  rewrite bind_unfold in H. cbn [addMessages mret M_ret] in H.
  injection H as <- <-. eauto.
Qed.

(** A turn that returns made exactly three calls, in this order: the
    rephrasing model on the whole history as it was before the turn
    followed by the request to rephrase the question; the store, searched
    for the question; the answering model on the retrieved documents as
    context, the same history, and the question.  The turn's output is what
    the answering model completed. *)
Theorem successful_turn_trace
    (store : list (Vector * Document)) (messageHistory : nat)
    (input : gmap string Value) (sessionId question output : string)
    (p p' : Process) :
  input !! "question" = Some (VString question) ->
  finalRetrievalChain_invoke store messageHistory input sessionId p = (Ok output, p') ->
  exists documents w w',
    (similaritySearch store question w).1 = Ok documents /\
    (chatCompletion answerModel
       (answerPrompt (convertDocsToString documents) (messagesOf messageHistory p) question)
       w').1 = Ok output /\
    trace p' = trace p ++
      [ChatCall rephraseModel (rephrasePrompt (messagesOf messageHistory p) question);
       RetrieveCall question;
       ChatCall answerModel
         (answerPrompt (convertDocsToString documents) (messagesOf messageHistory p)
            question)].
Proof.
  intros Hq H.
  assert (Hsid : sessionId <> "").
  { intros ->. unfold finalRetrievalChain_invoke in H. rewrite bind_unfold in H.
    discriminate H. }
  apply (finalRetrievalChain_invoke_chain _ _ _ _ question) in H as (pc & Hchain & Ht);
    [|done..].
  apply (conversationalRetrievalChain_cases _ _ question (messagesOf messageHistory p))
    in Hchain as [(e & He & _) | [(e & He & _) | (documents & w & Hsearch & Htrace & Hr)]];
    try discriminate He.
  2: { now rewrite lookup_insert_ne. }
  2: { now rewrite lookup_insert_eq. }
  destruct Hr as [(e & He) | (output' & w' & [= <-] & Hcall)]; [discriminate He|].
  exists documents, w, w'. rewrite Ht. done.
Qed.

(** A turn stops at the stage that throws.  When the rephrasing model
    throws, the turn throws that error having made the rephrasing call only:
    the store is not searched.  When the rephrasing model answers and the
    search throws, the turn throws that error having made those two calls
    only: the answering model is not called.  When the answering model
    throws, the turn throws that error after the three calls.  In each case
    the heap, the history with it, is as it was. *)
Theorem failed_turn_stops_at_failing_stage
    (store : list (Vector * Document)) (messageHistory : nat)
    (input : gmap string Value) (sessionId question : string) (p : Process) :
  sessionId <> "" ->
  input !! "question" = Some (VString question) ->
  (forall e w1,
     chatCompletion rephraseModel
       (rephrasePrompt (messagesOf messageHistory p) question) (world p) = (Throw e, w1) ->
     finalRetrievalChain_invoke store messageHistory input sessionId p =
       (Throw e,
        {| world := w1; disk := disk p; heap := heap p;
           trace := trace p ++
             [ChatCall rephraseModel
                (rephrasePrompt (messagesOf messageHistory p) question)] |})) /\
  (forall rephrased w1 e w2,
     chatCompletion rephraseModel
       (rephrasePrompt (messagesOf messageHistory p) question) (world p)
       = (Ok rephrased, w1) ->
     similaritySearch store question w1 = (Throw e, w2) ->
     finalRetrievalChain_invoke store messageHistory input sessionId p =
       (Throw e,
        {| world := w2; disk := disk p; heap := heap p;
           trace := trace p ++
             [ChatCall rephraseModel
                (rephrasePrompt (messagesOf messageHistory p) question);
              RetrieveCall question] |})) /\
  (forall rephrased w1 documents w2 e w3,
     chatCompletion rephraseModel
       (rephrasePrompt (messagesOf messageHistory p) question) (world p)
       = (Ok rephrased, w1) ->
     similaritySearch store question w1 = (Ok documents, w2) ->
     chatCompletion answerModel
       (answerPrompt (convertDocsToString documents) (messagesOf messageHistory p) question)
       w2 = (Throw e, w3) ->
     finalRetrievalChain_invoke store messageHistory input sessionId p =
       (Throw e,
        {| world := w3; disk := disk p; heap := heap p;
           trace := trace p ++
             [ChatCall rephraseModel
                (rephrasePrompt (messagesOf messageHistory p) question);
              RetrieveCall question;
              ChatCall answerModel
                (answerPrompt (convertDocsToString documents)
                   (messagesOf messageHistory p) question)] |})).
Proof.
  intros Hsid Hq.
  rewrite (finalRetrievalChain_invoke_outcome store messageHistory input sessionId question p
             Hsid Hq).
  unfold turnOutcome, chainOutcome. repeat split.
  - intros e w1 H1. rewrite H1. reflexivity.
  - intros rephrased w1 e w2 H1 H2. rewrite H1, H2. now rewrite <- !app_assoc.
  - intros rephrased w1 documents w2 e w3 H1 H2 H3. rewrite H1, H2, H3.
    now rewrite <- !app_assoc.
Qed.

(** The loop ends at the first turn that throws: whatever is typed after
    it is never asked. *)
Theorem loop_ends_at_first_failure
    (store : list (Vector * Document)) (messageHistory : nat)
    (asked later : list string) (p p' : Process) (e : Error) :
  askQuestion store messageHistory asked p = (Throw e, p') ->
  askQuestion store messageHistory (asked ++ later) p = (Throw e, p').
Proof.
  revert p. induction asked as [|q asked IH]; intros p H.
  - rewrite askQuestion_nil in H. discriminate H.
  - cbn [app]. rewrite askQuestion_cons in H |- *.
    destruct (finalRetrievalChain_invoke store messageHistory _ "test" _) as [[a|e'] pa];
      [|exact H].
    now apply IH.
Qed.

(** The conversation never touches the disk, the persisted index in
    particular, and on the heap it changes the one history only. *)
Theorem loop_never_touches_disk
    (store : list (Vector * Document)) (messageHistory : nat)
    (lines : list string) (p : Process) :
  disk (askQuestion store messageHistory lines p).2 = disk p /\
  forall address, address <> messageHistory ->
    heap (askQuestion store messageHistory lines p).2 !! address = heap p !! address.
Proof.
  revert p. induction lines as [|q rest IH]; intros p.
  - rewrite askQuestion_nil. done.
  - rewrite askQuestion_cons.
    destruct (finalRetrievalChain_invoke store messageHistory _ "test" _) as [[a|e] pa]
      eqn:Hturn;
      apply finalRetrievalChain_invoke_cases in Hturn as [Hdisk Hheap].
    + destruct Hheap as (question & _ & Hheap).
      destruct (IH (log (Stdout ("AI Response: " +:+ a +:+ nl)) pa).2) as [IHd IHh].
      split.
      * rewrite IHd. exact Hdisk.
      * intros address Hne. rewrite (IHh address Hne). cbn [log snd heap].
        rewrite Hheap. now rewrite lookup_insert_ne.
    + cbn [snd]. split; [exact Hdisk|]. intros address _. now rewrite Hheap.
Qed.





End Turn.

(** Whatever the rephrasing model answers is never used.  Run the same turn
    in a world where each of its answers is replaced by anything else
    ([g] of it): the turn returns the same result, makes the same calls with
    the same arguments in the same order, and leaves the same history and
    the same outside world. *)
Theorem rephrasing_answer_is_never_used
    (E : External) (g : string -> string)
    (store : list (Vector * Document)) (messageHistory : nat)
    (input : gmap string Value) (sessionId question : string)
    (p : @Process E) (p' : @Process (withRephrasing g E)) :
  sessionId <> "" ->
  input !! "question" = Some (VString question) ->
  world p = world p' ->
  heap p = heap p' ->
  trace p = trace p' ->
  (finalRetrievalChain_invoke (E := E) store messageHistory input sessionId p).1 =
  (finalRetrievalChain_invoke (E := withRephrasing g E)
     store messageHistory input sessionId p').1 /\
  world (finalRetrievalChain_invoke (E := E) store messageHistory input sessionId p).2 =
  world (finalRetrievalChain_invoke (E := withRephrasing g E)
           store messageHistory input sessionId p').2 /\
  heap (finalRetrievalChain_invoke (E := E) store messageHistory input sessionId p).2 =
  heap (finalRetrievalChain_invoke (E := withRephrasing g E)
          store messageHistory input sessionId p').2 /\
  trace (finalRetrievalChain_invoke (E := E) store messageHistory input sessionId p).2 =
  trace (finalRetrievalChain_invoke (E := withRephrasing g E)
           store messageHistory input sessionId p').2.
Proof.
  intros Hsid Hq Hworld Hheap Htrace.
  rewrite (finalRetrievalChain_invoke_outcome (E := E) store messageHistory input
             sessionId question p Hsid Hq).
  rewrite (finalRetrievalChain_invoke_outcome (E := withRephrasing g E) store messageHistory
             input sessionId question p' Hsid Hq).
  unfold turnOutcome, chainOutcome, messagesOf.
  rewrite <- Hheap, <- Htrace, <- Hworld.
  cbn [chatCompletion similaritySearch withRephrasing temperature rephraseModel answerModel].
  destruct (@chatCompletion E rephraseModel
              (rephrasePrompt (default [] (heap p !! messageHistory)) question) (world p))
    as [[content|e] w1]; [|done].
  destruct (@similaritySearch E store question w1) as [[documents|e] w2]; [|done].
  destruct (@chatCompletion E answerModel
              (answerPrompt (convertDocsToString documents)
                 (default [] (heap p !! messageHistory)) question) w2)
    as [[output|e] w3]; done.
Qed.

(** * Further properties of the context string *)

(** The context of two non-empty result lists put end to end is their
    contexts joined by one newline. *)
Theorem convertDocsToString_app (first second : list Document) :
  first <> [] ->
  second <> [] ->
  convertDocsToString (first ++ second) =
  convertDocsToString first +:+ nl +:+ convertDocsToString second.
Proof.
  intros Hfirst Hsecond. unfold convertDocsToString.
  destruct second as [|y second]; [done|]. clear Hsecond.
  induction first as [|x first IH]; [done|]. clear Hfirst.
  destruct first as [|x' first]; [reflexivity|].
  change (join nl (map ?f ((x :: x' :: first) ++ y :: second)))
    with (f x +:+ nl +:+ join nl (map f ((x' :: first) ++ y :: second))).
  rewrite IH by done.
  change (join nl (map ?f (x :: x' :: first)))
    with (f x +:+ nl +:+ join nl (map f (x' :: first))).
  now rewrite !append_assoc.
Qed.

(** Contents are not escaped: one document whose content holds the closing
    and opening markers gives the same context as two documents, and
    metadata never shows. *)
Theorem convertDocsToString_not_escaped
    (a b : string) (m ma mb : list (string * string)) :
  convertDocsToString
    [ {| pageContent := a +:+ nl +:+ "</doc>" +:+ nl +:+ "<doc>" +:+ nl +:+ b;
         metadata := m |} ]
  = convertDocsToString
      [ {| pageContent := a; metadata := ma |}; {| pageContent := b; metadata := mb |} ].
Proof.
  unfold convertDocsToString. cbn [map join pageContent].
  now rewrite !append_assoc.
Qed.

(** ** Runs for the further properties *)

Section MoreRuns.
Import Demo.

Lemma startup_leaves_disk_consistent_witness :
  indexing (firstRun 0) = (Ok indexed, secondRun 0) /\
  exists w w' data,
    disk (secondRun 0) !! CSV_FILE_PATH = Some (File true w data) /\
    disk (secondRun 0) !! HASH_FILE_PATH = Some (File true w' (Sha256.sha256_hex data)) /\
    disk (secondRun 0) !! DIRECTORY = Some (IndexBundle indexed) /\
    changeDetection (secondRun 0) = (Ok (Sha256.sha256_hex data, false), secondRun 0).
Proof.
  assert (H1 : indexing (firstRun 0) = (Ok indexed, secondRun 0))
    by (vm_compute; reflexivity).
  exact (conj H1 (startup_leaves_disk_consistent (firstRun 0) (secondRun 0) indexed H1)).
Defined.

Lemma startup_writes_only_sidecar_and_index_witness :
  CSV_FILE_PATH <> HASH_FILE_PATH /\
  CSV_FILE_PATH <> DIRECTORY /\
  disk (indexing (firstRun 0)).2 !! CSV_FILE_PATH = disk (firstRun 0) !! CSV_FILE_PATH /\
  heap (indexing (firstRun 0)).2 = heap (firstRun 0).
Proof.
  assert (H1 : CSV_FILE_PATH <> HASH_FILE_PATH) by (vm_compute; discriminate).
  assert (H2 : CSV_FILE_PATH <> DIRECTORY) by (vm_compute; discriminate).
  exact (conj H1 (conj H2
           (startup_writes_only_sidecar_and_index (firstRun 0) CSV_FILE_PATH H1 H2))).
Defined.

(** The sidecar is read-only: the index is built and saved, the sidecar
    write throws, and the sidecar still holds the stale fingerprint. *)
Lemma failed_startup_keeps_sidecar_witness :
  indexing readOnlySidecar = (Throw (EACCES HASH_FILE_PATH), (indexing readOnlySidecar).2) /\
  disk (indexing readOnlySidecar).2 !! HASH_FILE_PATH
    = disk readOnlySidecar !! HASH_FILE_PATH /\
  (changeDetection (indexing readOnlySidecar).2).1 = (changeDetection readOnlySidecar).1.
Proof.
  assert (H1 : indexing readOnlySidecar
               = (Throw (EACCES HASH_FILE_PATH), (indexing readOnlySidecar).2))
    by (vm_compute; reflexivity).
  exact (conj H1 (failed_startup_keeps_sidecar readOnlySidecar _ _ H1)).
Defined.

Example read_only_sidecar_run :
  disk (indexing readOnlySidecar).2 !! DIRECTORY = Some (IndexBundle indexed) /\
  disk (indexing readOnlySidecar).2 !! HASH_FILE_PATH = Some (File true false "0f") /\
  (changeDetection (indexing readOnlySidecar).2).1
    = Ok ("8df063ac941d4aae3e8f1574358f86212398b4b3a735b6c1c5332f1f2bfb1273", true).
Proof. refine (conj _ (conj _ _)); vm_compute; reflexivity. Qed.

Lemma unreadable_corpus_is_fatal_witness :
  (forall w data, disk noCorpus !! CSV_FILE_PATH <> Some (File true w data)) /\
  exists e,
    indexing noCorpus = (Throw e, noCorpus) /\
    main [firstQuestion] noCorpus = (Throw e, noCorpus).
Proof.
  assert (H1 : forall w data, disk noCorpus !! CSV_FILE_PATH <> Some (File true w data))
    by (intros w data; vm_compute; discriminate).
  exact (conj H1 (unreadable_corpus_is_fatal noCorpus [firstQuestion] H1)).
Defined.

Lemma successful_turn_trace_witness :
  ({[ "question" := VString followUp ]} : gmap string Value) !! "question"
    = Some (VString followUp) /\
  ask followUp "test" (fresh 2) = (Ok answer, (ask followUp "test" (fresh 2)).2) /\
  exists documents w w',
    (similaritySearch indexed followUp w).1 = Ok documents /\
    (chatCompletion answerModel
       (answerPrompt (convertDocsToString documents) (messagesOf 0 (fresh 2)) followUp)
       w').1 = Ok answer /\
    trace (ask followUp "test" (fresh 2)).2 = trace (fresh 2) ++
      [ChatCall rephraseModel (rephrasePrompt (messagesOf 0 (fresh 2)) followUp);
       RetrieveCall followUp;
       ChatCall answerModel
         (answerPrompt (convertDocsToString documents) (messagesOf 0 (fresh 2)) followUp)].
Proof.
  assert (H1 : ask followUp "test" (fresh 2) = (Ok answer, (ask followUp "test" (fresh 2)).2))
    by (vm_compute; reflexivity).
  exact (conj eq_refl (conj H1
           (successful_turn_trace indexed 0 {[ "question" := VString followUp ]}
              "test" followUp answer (fresh 2) _ eq_refl H1))).
Defined.

(** With no completion left the rephrasing model throws, and the turn
    stops there. *)
Lemma failed_turn_stops_at_failing_stage_witness :
  "test" <> "" /\
  ({[ "question" := VString followUp ]} : gmap string Value) !! "question"
    = Some (VString followUp) /\
  chatCompletion rephraseModel (rephrasePrompt (messagesOf 0 (fresh 0)) followUp)
    (world (fresh 0)) = (Throw ModelCallError, 0) /\
  ask followUp "test" (fresh 0) =
    (Throw ModelCallError,
     {| world := 0; disk := disk (fresh 0); heap := heap (fresh 0);
        trace := trace (fresh 0) ++
          [ChatCall rephraseModel (rephrasePrompt (messagesOf 0 (fresh 0)) followUp)] |}).
Proof.
  assert (H0 : "test" <> "") by discriminate.
  exact (conj H0 (conj eq_refl (conj eq_refl
           (proj1 (failed_turn_stops_at_failing_stage indexed 0
                     {[ "question" := VString followUp ]} "test" followUp (fresh 0)
                     H0 eq_refl)
                  ModelCallError 0 eq_refl)))).
Defined.

(** With one completion left the rephrasing succeeds, the search succeeds
    and the answering model throws. *)
Example failed_answer_after_three_calls :
  trace (ask followUp "test" (fresh 1)).2 =
    [ChatCall rephraseModel (rephrasePrompt [] followUp);
     RetrieveCall followUp;
     ChatCall answerModel
       (answerPrompt (convertDocsToString (map snd indexed)) [] followUp)] /\
  (ask followUp "test" (fresh 1)).1 = Throw ModelCallError.
Proof. split; vm_compute; reflexivity. Qed.

Lemma rephrasing_answer_is_never_used_witness :
  "test" <> "" /\
  ({[ "question" := VString followUp ]} : gmap string Value) !! "question"
    = Some (VString followUp) /\
  (finalRetrievalChain_invoke (E := scripted) indexed 0
     {[ "question" := VString followUp ]} "test" (fresh 2)).1 =
  (finalRetrievalChain_invoke (E := rephrasedElsewhere) indexed 0
     {[ "question" := VString followUp ]} "test" (freshElsewhere 2)).1 /\
  trace (finalRetrievalChain_invoke (E := scripted) indexed 0
           {[ "question" := VString followUp ]} "test" (fresh 2)).2 =
  trace (finalRetrievalChain_invoke (E := rephrasedElsewhere) indexed 0
           {[ "question" := VString followUp ]} "test" (freshElsewhere 2)).2.
Proof.
  assert (H0 : "test" <> "") by discriminate.
  pose proof (rephrasing_answer_is_never_used scripted (fun _ => "Anything else?") indexed 0
                {[ "question" := VString followUp ]} "test" followUp (fresh 2)
                (freshElsewhere 2) H0 eq_refl eq_refl eq_refl eq_refl) as H.
  exact (conj H0 (conj eq_refl (conj (proj1 H) (proj2 (proj2 (proj2 H)))))).
Defined.

(** In that world the rephrasing model does answer something else. *)
Example rephrased_elsewhere_differs :
  (chatCompletion (External := rephrasedElsewhere) rephraseModel
     (rephrasePrompt [] followUp) 2).1 = Ok "Anything else?" /\
  (chatCompletion (External := scripted) rephraseModel
     (rephrasePrompt [] followUp) 2).1 = Ok standalone.
Proof. split; reflexivity. Qed.

(** When the rephrasing model fails nothing else is called. *)
Example failed_rephrase_calls_nothing_else :
  trace (ask followUp "test" (fresh 0)).2
    = [ChatCall rephraseModel (rephrasePrompt [] followUp)].
Proof. vm_compute. reflexivity. Qed.

Lemma loop_ends_at_first_failure_witness :
  askQuestion indexed 0 [firstQuestion] (fresh 1)
    = (Throw ModelCallError, (askQuestion indexed 0 [firstQuestion] (fresh 1)).2) /\
  askQuestion indexed 0 ([firstQuestion] ++ [followUp]) (fresh 1)
    = (Throw ModelCallError, (askQuestion indexed 0 [firstQuestion] (fresh 1)).2).
Proof.
  assert (H1 : askQuestion indexed 0 [firstQuestion] (fresh 1)
               = (Throw ModelCallError, (askQuestion indexed 0 [firstQuestion] (fresh 1)).2))
    by (vm_compute; reflexivity).
  exact (conj H1
           (loop_ends_at_first_failure indexed 0 [firstQuestion] [followUp]
              (fresh 1) _ ModelCallError H1)).
Defined.


Lemma convertDocsToString_app_witness :
  [refunds] <> [] /\
  [shipping; returns] <> [] /\
  convertDocsToString ([refunds] ++ [shipping; returns]) =
  convertDocsToString [refunds] +:+ nl +:+ convertDocsToString [shipping; returns].
Proof.
  assert (H1 : [refunds] <> []) by discriminate.
  assert (H2 : [shipping; returns] <> []) by discriminate.
  exact (conj H1 (conj H2 (convertDocsToString_app [refunds] [shipping; returns] H1 H2))).
Defined.

End MoreRuns.
